(* Shallow embedding of the ClervLive delivery core (Go): messages, the
   recent-message ring, subscribers with their drop strategies and
   delivery loop, topics, the topic manager, the adaptive buffer manager
   and the adaptive throttler.

   Conventions.  Go [int]/[int32]/[int64] values are [Z]; wrap-around of
   the narrowing conversions is written out ([toInt32], [toInt64]).
   A Go panic (index out of range, negative [make], send on a closed
   channel) is [None] in an [option] result.  Time is a [Z] count of
   nanoseconds ([time.Duration]).  float64 ratios and thresholds are
   modelled as exact rationals [Q]. *)

From Stdlib Require Import ZArith QArith Lia.
From stdpp Require Import base gmap strings list.

Open Scope Z_scope.

(* ------------------------------------------------------------------ *)
(** * Go integer helpers *)

(** [x % m] in Go is the truncated remainder. *)
Definition go_rem (x m : Z) : Z := Z.rem x m.

(** Two's complement narrowing, as Go's [int32(x)] and [int64(x)]. *)
Definition toInt32 (x : Z) : Z := (x + 2 ^ 31) mod 2 ^ 32 - 2 ^ 31.
Definition toInt64 (x : Z) : Z := (x + 2 ^ 63) mod 2 ^ 64 - 2 ^ 63.

(** Reading [s[i]] of a Go slice: panics out of range. *)
Definition slice_get {A} (l : list A) (i : Z) : option A :=
  if i <? 0 then None else l !! Z.to_nat i.

(** Writing [s[i] = x]: panics out of range. *)
Definition slice_set {A} (l : list A) (i : Z) (x : A) : option (list A) :=
  if (0 <=? i) && (i <? Z.of_nat (length l)) then Some (<[Z.to_nat i := x]> l)
  else None.

(* ------------------------------------------------------------------ *)
(** * Message (internal/core/message.go) *)

(** [Data] is a JSON object ([map[string]interface{}]) kept opaque here as
    its text; [Timestamp] is the ingress time in nanoseconds. *)
Record Message := mkMessage {
  Id : string;
  MTopic : string;
  TenantID : string;
  Data : string;
  Timestamp : Z
}.

(** The Go zero value of [Message] (used by [make([]Message, size)]). *)
Definition zeroMessage : Message := mkMessage "" "" "" "" 0.

(** [NewMessage(topic, tenantID, data)]; [GenerateId()] and [time.Now()]
    are the arguments [id] and [now]. *)
Definition NewMessage (topic tenantID data : string) (id : string) (now : Z)
  : Message :=
  {| Id := id; MTopic := topic; TenantID := tenantID; Data := data;
     Timestamp := now |}.

(* ------------------------------------------------------------------ *)
(** * RecentMessageCache (internal/core/recent_cache.go) *)

Record RecentMessageCache := mkCache {
  messages : list Message;
  size : Z;
  index : Z;
  count : Z
}.

(** [NewRecentMessageCache(size)]; [make] panics on a negative size. *)
Definition NewRecentMessageCache (sz : Z) : option RecentMessageCache :=
  if sz <? 0 then None
  else Some {| messages := replicate (Z.to_nat sz) zeroMessage;
               size := sz; index := 0; count := 0 |}.

(** [Add(msg)]: [c.messages[c.index] = msg]; [c.index = (c.index+1) % c.size];
    [count++] below capacity.  A zero size panics (index out of range on the
    empty slice, before the division by zero). *)
Definition Add (msg : Message) (c : RecentMessageCache)
  : option RecentMessageCache :=
  match slice_set (messages c) (index c) msg with
  | None => None
  | Some ms =>
      if size c =? 0 then None
      else Some {| messages := ms;
                   size := size c;
                   index := go_rem (index c + 1) (size c);
                   count := if count c <? size c then count c + 1 else count c |}
  end.

(** The copy loop [for i := 0; i < n; i++ { result[i] = c.messages[(startPost+i) % c.size] }]. *)
Fixpoint copy_loop (ms : list Message) (sz startPost i : Z) (k : nat)
  : option (list Message) :=
  match k with
  | O => Some []
  | S k' =>
      match slice_get ms (go_rem (startPost + i) sz) with
      | None => None
      | Some m =>
          match copy_loop ms sz startPost (i + 1) k' with
          | None => None
          | Some rest => Some (m :: rest)
          end
      end
  end.

(** [GetLast(n)]. *)
Definition GetLast (c : RecentMessageCache) (n0 : Z) : option (list Message) :=
  let n := if n0 >? count c then count c else n0 in
  if n =? 0 then Some []
  else if n <? 0 then None                       (* make([]Message, n) panics *)
  else
    let startPost := go_rem (index c - n + size c) (size c) in
    copy_loop (messages c) (size c) startPost 0 (Z.to_nat n).

(** [GetAll()]. *)
Definition GetAll (c : RecentMessageCache) : option (list Message) :=
  GetLast c (count c).

(** [Clear()]: the slice is kept, only the cursors are reset. *)
Definition Clear (c : RecentMessageCache) : RecentMessageCache :=
  {| messages := messages c; size := size c; index := 0; count := 0 |}.

(** [GetCount()]. *)
Definition GetCount (c : RecentMessageCache) : Z := count c.

(** Adding a history of messages, oldest first, one [Add] after the other. *)
Fixpoint add_all (h : list Message) (c : RecentMessageCache)
  : option RecentMessageCache :=
  match h with
  | [] => Some c
  | m :: h' => match Add m c with
               | None => None
               | Some c' => add_all h' c'
               end
  end.

(** The [k] most recent elements of a history, oldest first. *)
Definition most_recent {A} (k : nat) (h : list A) : list A :=
  drop (length h - k) h.

(** Representation invariant of a ring built by [Add]s from a fresh cache:
    the ring holds the last [count] elements of the history [h] at their
    positions modulo [size]. *)
Definition cache_models (h : list Message) (c : RecentMessageCache) : Prop :=
  0 < size c /\
  length (messages c) = Z.to_nat (size c) /\
  count c = Z.min (Z.of_nat (length h)) (size c) /\
  index c = Z.of_nat (length h) mod size c /\
  forall p, Z.of_nat (length h) - count c <= p < Z.of_nat (length h) ->
    slice_get (messages c) (p mod size c) = h !! Z.to_nat p.

(** Caches reachable in the program: created by [NewRecentMessageCache]
    and then changed only by [Add] and [Clear]. *)
Inductive cache_reach : RecentMessageCache -> Prop :=
  | reach_new (N : Z) (c : RecentMessageCache) :
      NewRecentMessageCache N = Some c -> cache_reach c
  | reach_add (m : Message) (c c' : RecentMessageCache) :
      cache_reach c -> Add m c = Some c' -> cache_reach c'
  | reach_clear (c : RecentMessageCache) :
      cache_reach c -> cache_reach (Clear c).

(** Shape invariant of reachable caches. *)
Definition cache_wf (c : RecentMessageCache) : Prop :=
  length (messages c) = Z.to_nat (size c) /\
  (0 <= count c <= size c) /\
  0 <= index c /\ (0 < size c -> index c < size c).

(** A sample ring: capacity 3, four messages published. *)
Definition demo_msg (i : Z) : Message :=
  NewMessage "orders" "default-tenant" "{}" "msg-demo" i.
Definition demo_hist : list Message := [demo_msg 1; demo_msg 2; demo_msg 3; demo_msg 4].
Definition demo_cache0 : RecentMessageCache :=
  mkCache (replicate 3 zeroMessage) 3 0 0.
Definition demo_cache : RecentMessageCache :=
  Eval cbv in match add_all demo_hist demo_cache0 with
              | Some c => c | None => demo_cache0 end.

(* ------------------------------------------------------------------ *)
(** * Subscriber (internal/core/subscriber.go) *)

(** [DropStrategy] is a Go [int] with three named constants. *)
Definition DROP_OLDEST : Z := 0.
Definition DROP_NEWEST : Z := 1.
Definition CIRCUIT_BREAKER : Z := 2.

Definition second : Z := 1000000000.

(** The subscriber object.  [messageChan] is the buffered channel (its
    items, oldest first) and [chanCap] its capacity; [closed] records that
    [closeOnce] has run (context cancelled, [done] and [messageChan]
    closed, connection closed); [inFlight] is the message the [sendLoop]
    goroutine has received from the channel and is writing. *)
Record Subscriber := mkSubscriber {
  ID : string;
  SubTenantID : string;
  SubTopic : string;
  messageChan : list Message;
  chanCap : Z;
  dropStrategy : Z;
  droppedCount : Z;
  messagesRecieved : Z;
  messagesSent : Z;
  lastActive : Z;
  closed : bool;
  inFlight : option Message
}.

Definition set_chan (s : Subscriber) (ch : list Message) : Subscriber :=
  {| ID := ID s; SubTenantID := SubTenantID s; SubTopic := SubTopic s;
     messageChan := ch; chanCap := chanCap s; dropStrategy := dropStrategy s;
     droppedCount := droppedCount s; messagesRecieved := messagesRecieved s;
     messagesSent := messagesSent s; lastActive := lastActive s;
     closed := closed s; inFlight := inFlight s |}.

Definition set_counters (s : Subscriber) (dropped recv sent : Z) : Subscriber :=
  {| ID := ID s; SubTenantID := SubTenantID s; SubTopic := SubTopic s;
     messageChan := messageChan s; chanCap := chanCap s;
     dropStrategy := dropStrategy s;
     droppedCount := dropped; messagesRecieved := recv; messagesSent := sent;
     lastActive := lastActive s; closed := closed s; inFlight := inFlight s |}.

Definition set_loop (s : Subscriber) (act : Z) (cl : bool) (fl : option Message)
  : Subscriber :=
  {| ID := ID s; SubTenantID := SubTenantID s; SubTopic := SubTopic s;
     messageChan := messageChan s; chanCap := chanCap s;
     dropStrategy := dropStrategy s;
     droppedCount := droppedCount s; messagesRecieved := messagesRecieved s;
     messagesSent := messagesSent s;
     lastActive := act; closed := cl; inFlight := fl |}.

(** [s.droppedCount.Add(1)] *)
Definition incr_dropped (s : Subscriber) : Subscriber :=
  set_counters s (droppedCount s + 1) (messagesRecieved s) (messagesSent s).

(** [NewSubscriber(id, tenantID, topic, conn, ctx, bufferSize)] at time [now];
    [make(chan Message, bufferSize)] panics on a negative size. *)
Definition NewSubscriber (id tenantID topic : string) (bufferSize now : Z)
  : option Subscriber :=
  if bufferSize <? 0 then None
  else Some {| ID := id; SubTenantID := tenantID; SubTopic := topic;
               messageChan := []; chanCap := bufferSize;
               dropStrategy := DROP_OLDEST;
               droppedCount := 0; messagesRecieved := 0; messagesSent := 0;
               lastActive := now; closed := false; inFlight := None |}.

(** Non-blocking channel operations ([select] with [default]) on an open
    buffered channel: a send succeeds while the buffer has room.  On an
    unbuffered channel (capacity 0) Go would also hand the value to a
    receiver blocked on it, which is not modelled: the program makes every
    subscriber channel with capacity [GetBufferSize()], which lies in
    [MinBifferSize, MaxBufferSize] = [100, 1000]. *)
Definition chan_try_send (s : Subscriber) (m : Message) : option Subscriber :=
  if Z.of_nat (length (messageChan s)) <? chanCap s
  then Some (set_chan s (messageChan s ++ [m])) else None.

Definition chan_try_recv (s : Subscriber) : option (Message * Subscriber) :=
  match messageChan s with
  | m :: rest => Some (m, set_chan s rest)
  | [] => None
  end.

(** [Close()]: guarded by [closeOnce]. *)
Definition Close (s : Subscriber) : Subscriber :=
  if closed s then s else set_loop s (lastActive s) true (inFlight s).

Inductive SendError :=
  | ErrStillFull          (* "buffer Still Full After dropping data" *)
  | ErrBufferFull         (* DROP_NEWEST: "buffer full, dropped new message" *)
  | ErrCircuitBreaker     (* "circuit breaker triggered" *)
  | ErrUnknownStrategy.

(** [handleBackPressure(msg)]; [None] is a [nil] error. *)
Definition handleBackPressure (msg : Message) (s : Subscriber)
  : option SendError * Subscriber :=
  if dropStrategy s =? DROP_OLDEST then
    let s1 := match chan_try_recv s with
              | Some (_, s') => incr_dropped s'
              | None => s
              end in
    match chan_try_send s1 msg with
    | Some s2 => (None, s2)
    | None => (Some ErrStillFull, incr_dropped s1)
    end
  else if dropStrategy s =? DROP_NEWEST then
    (Some ErrBufferFull, incr_dropped s)
  else if dropStrategy s =? CIRCUIT_BREAKER then
    let dropped := droppedCount s in
    if dropped >? 100 then (Some ErrCircuitBreaker, Close s)
    else (None, s)
  else (Some ErrUnknownStrategy, incr_dropped s).

(** [SendMessages(msg)].  The outer [None] is the panic of a send on the
    closed [messageChan]. *)
Definition SendMessages (msg : Message) (s : Subscriber)
  : option (option SendError * Subscriber) :=
  let s0 := set_counters s (droppedCount s) (messagesRecieved s + 1) (messagesSent s) in
  if closed s0 then None
  else match chan_try_send s0 msg with
       | Some s1 => Some (None, s1)
       | None => Some (handleBackPressure msg s0)
       end.

(** One [sendLoop] iteration, split at its suspension point: receiving
    from [messageChan], then the outcome of [sendToClient] (a successful
    write at time [now] increments [messagesSent] and sets [lastActive]; a
    failed one closes the subscriber and ends the loop). *)
Definition loop_recv (s : Subscriber) : option Subscriber :=
  match inFlight s, messageChan s with
  | None, m :: rest => Some (set_loop (set_chan s rest) (lastActive s) (closed s) (Some m))
  | _, _ => None
  end.

Definition loop_write_ok (now : Z) (s : Subscriber) : option Subscriber :=
  match inFlight s with
  | Some _ =>
      let s1 := set_counters s (droppedCount s) (messagesRecieved s) (messagesSent s + 1) in
      Some (set_loop s1 now (closed s1) None)
  | None => None
  end.

Definition loop_write_fail (s : Subscriber) : option Subscriber :=
  match inFlight s with
  | Some _ => Some (Close (set_loop s (lastActive s) (closed s) None))
  | None => None
  end.

(** [IsHealthy()] at time [now]; [float64(dropped)/float64(received) > 0.1]
    is compared as rationals.  For counters below 2^50 the two agree: a
    ratio d/r other than 1/10 is at relative distance at least 1/r from
    it, far beyond the rounding of the quotient and of the literal 0.1. *)
Definition IsHealthy (now : Z) (s : Subscriber) : bool :=
  if now - lastActive s >? 60 * second then false
  else
    let messagesRecieved := messagesRecieved s in
    let droppedCount := droppedCount s in
    if messagesRecieved >? 0 then
      let dropRate := (inject_Z droppedCount / inject_Z messagesRecieved)%Q in
      if negb (Qle_bool dropRate (1 # 10)) then false else true
    else true.

(** [IsSlow()]. *)
Definition IsSlow (s : Subscriber) : bool := droppedCount s >? 0.

(** Where the [sendLoop] goroutine is: running (waiting in its [select],
    or holding in [inFlight] the message it received while [sendToClient]
    is in progress); returned through the error path of [sendToClient]
    ([s.Close(); return], the message it held is not counted anywhere); or
    returned by any other path ([messageChan] closed and drained, [done],
    [ctx.Done()], or a failed ping after its [Close()]), always from the
    [select], so holding no message. *)
Inductive LoopStatus := LoopRunning | LoopWriteFailed | LoopReturned.

(** Events of one subscriber: a [SendMessages] call, a delivery-loop
    receive, the completion of its transport write, successful at time
    [now] or failed, the loop returning from its [select], and [Close]
    (e.g. by [Unsubscribe], or by the loop itself before returning on a
    failed ping). *)
Inductive SubEvent :=
  | EvSend (m : Message)
  | EvRecv
  | EvWriteOk (now : Z)
  | EvWriteFail
  | EvLoopReturn
  | EvClose.

(** One event; [None] when it cannot happen: a send that panics on the
    closed channel, a loop step once the loop has returned, a receive with
    nothing to receive or while a write is pending, a write completion with
    no write pending, a return from the [select] while a write is pending. *)
Definition sub_step (ev : SubEvent) (s : Subscriber) (ls : LoopStatus)
  : option (Subscriber * LoopStatus) :=
  match ev, ls with
  | EvSend m, _ =>
      match SendMessages m s with Some (_, s') => Some (s', ls) | None => None end
  | EvClose, _ => Some (Close s, ls)
  | EvRecv, LoopRunning =>
      match loop_recv s with Some s' => Some (s', LoopRunning) | None => None end
  | EvWriteOk now, LoopRunning =>
      match loop_write_ok now s with Some s' => Some (s', LoopRunning) | None => None end
  | EvWriteFail, LoopRunning =>
      match loop_write_fail s with Some s' => Some (s', LoopWriteFailed) | None => None end
  | EvLoopReturn, LoopRunning =>
      match inFlight s with None => Some (s, LoopReturned) | Some _ => None end
  | _, _ => None
  end.

(** Runs events in order from the subscriber [s] and the loop status [ls]. *)
Fixpoint run_sub (evs : list SubEvent) (s : Subscriber) (ls : LoopStatus)
  : option (Subscriber * LoopStatus) :=
  match evs with
  | [] => Some (s, ls)
  | ev :: rest =>
      match sub_step ev s ls with
      | None => None
      | Some (s', ls') => run_sub rest s' ls'
      end
  end.

(** The subscriber [s] with its (unexported) [dropStrategy] field set. *)
Definition with_strategy (s : Subscriber) (st : Z) : Subscriber :=
  {| ID := ID s; SubTenantID := SubTenantID s; SubTopic := SubTopic s;
     messageChan := messageChan s; chanCap := chanCap s; dropStrategy := st;
     droppedCount := droppedCount s; messagesRecieved := messagesRecieved s;
     messagesSent := messagesSent s; lastActive := lastActive s;
     closed := closed s; inFlight := inFlight s |}.

(** Number of messages held by the delivery loop (0 or 1). *)
Definition in_flight_count (s : Subscriber) : Z :=
  match inFlight s with Some _ => 1 | None => 0 end.

(** Number of messages lost by the delivery loop (1 once a write failed). *)
Definition lost_count (ls : LoopStatus) : Z :=
  match ls with LoopWriteFailed => 1 | _ => 0 end.

(** The drop-accounting equation with the in-flight message. *)
Definition accounted (s : Subscriber) : Prop :=
  messagesRecieved s =
    messagesSent s + droppedCount s + Z.of_nat (length (messageChan s)) + in_flight_count s.

(** The accounting invariant of a subscriber and its delivery loop: once a
    write has failed the subscriber is closed, holds no message and has
    lost one; otherwise [accounted]. *)
Definition sub_inv (s : Subscriber) (ls : LoopStatus) : Prop :=
  match ls with
  | LoopWriteFailed =>
      closed s = true /\ inFlight s = None /\
      messagesRecieved s =
        messagesSent s + droppedCount s + Z.of_nat (length (messageChan s)) + 1
  | _ => accounted s
  end.

(* ------------------------------------------------------------------ *)
(** * Topic (internal/core/topic.go) *)

(** [subscribers] maps subscriber ids to the subscriber objects; a
    subscriber belongs to one topic, so its state lives in that entry. *)
Record Topic := mkTopic {
  name : string;
  tenantID : string;
  subscribers : gmap string Subscriber;
  recentCache : RecentMessageCache;
  messagesPublished : Z;
  totalSubscribers : Z;
  createdAt : Z
}.

Inductive TopicError := ErrTenantMismatch | ErrNotFound.

Definition set_topic (t : Topic) (subs : gmap string Subscriber)
    (c : RecentMessageCache) (published total : Z) : Topic :=
  {| name := name t; tenantID := tenantID t; subscribers := subs;
     recentCache := c; messagesPublished := published;
     totalSubscribers := total; createdAt := createdAt t |}.

(** [NewTopic(name, tenantID, cahcheSize)] at time [now]. *)
Definition NewTopic (nm tenant : string) (cahcheSize now : Z) : option Topic :=
  match NewRecentMessageCache cahcheSize with
  | None => None
  | Some c => Some {| name := nm; tenantID := tenant; subscribers := ∅;
                      recentCache := c; messagesPublished := 0;
                      totalSubscribers := 0; createdAt := now |}
  end.

(** The parallel fan-out of [Publish] over the snapshot: every subscriber
    runs [SendMessages] on its own object; errors are only logged; a panic
    in any goroutine ends the process ([None]). *)
Definition fanout (msg : Message) (subs : gmap string Subscriber)
  : option (gmap string Subscriber) :=
  let results := SendMessages msg <$> subs in
  if map_fold (fun _ r ok => match r with Some _ => ok | None => false end)
       true results
  then Some (omap (fun r => snd <$> r) results)
  else None.

(** [Topic.Publish(msg)]. *)
Definition Topic_Publish (msg : Message) (t : Topic) : option Topic :=
  match Add msg (recentCache t) with
  | None => None
  | Some c =>
      match fanout msg (subscribers t) with
      | None => None
      | Some subs => Some (set_topic t subs c (messagesPublished t + 1) (totalSubscribers t))
      end
  end.

(** The catch-up loop of [sendRecentMessages]: stops at the first error. *)
Fixpoint catchup_loop (recent : list Message) (s : Subscriber) : option Subscriber :=
  match recent with
  | [] => Some s
  | msg :: rest =>
      match SendMessages msg s with
      | None => None
      | Some (Some _, s') => Some s'
      | Some (None, s') => catchup_loop rest s'
      end
  end.

(** [sendRecentMessages(sub)]. *)
Definition sendRecentMessages (c : RecentMessageCache) (s : Subscriber)
  : option Subscriber :=
  match GetLast c 50 with
  | None => None
  | Some recent => catchup_loop recent s
  end.

(** [Topic.Subscribe(sub)]: returns its error value and the topic after the
    insertion.  The catch-up ([go t.sendRecentMessages(sub)]) and the
    delivery loop ([sub.Start()]) run in their own goroutines, after the
    return value is fixed; the catch-up is the separate step
    [topic_catchup]. *)
Definition Topic_Subscribe (sub : Subscriber) (t : Topic) : option TopicError * Topic :=
  if negb (String.eqb (tenantID t) (SubTenantID sub)) then (Some ErrTenantMismatch, t)
  else (None, set_topic t (<[ID sub := sub]> (subscribers t)) (recentCache t)
                 (messagesPublished t) (totalSubscribers t + 1)).

(** The catch-up goroutine of the subscriber [subID].  It holds the
    subscriber object itself: while the topic maps [subID] to it, that
    entry is its current state.  Once [Unsubscribe] has removed the entry,
    the object is closed ([Topic_Unsubscribe] closes it in the same step),
    so the first [SendMessages] panics on the closed channel; only an empty
    recent list lets the goroutine finish. *)
Definition topic_catchup (subID : string) (t : Topic) : option Topic :=
  match subscribers t !! subID with
  | None =>
      match GetLast (recentCache t) 50 with
      | Some [] => Some t
      | _ => None
      end
  | Some s =>
      match sendRecentMessages (recentCache t) s with
      | None => None
      | Some s' => Some (set_topic t (<[subID := s']> (subscribers t)) (recentCache t)
                           (messagesPublished t) (totalSubscribers t))
      end
  end.

(** A run of [Publish] calls on one topic, in order. *)
Fixpoint publish_all (msgs : list Message) (t : Topic) : option Topic :=
  match msgs with
  | [] => Some t
  | m :: rest =>
      match Topic_Publish m t with
      | None => None
      | Some t' => publish_all rest t'
      end
  end.

(* ------------------------------------------------------------------ *)
(** * AddaptiveBufferManager (internal/buffer) *)

Definition MinBifferSize : Z := 100.
Definition MaxBufferSize : Z := 1000.
Definition ReCalcTime : Z := 5 * second.
Definition AvgMessSize : Z := 1024.

Record AddaptiveBufferManager := mkABM {
  maxTotalMemory : Z;     (* int64 *)
  suncriberCount : Z;     (* atomic.Int32 *)
  bufferSize : Z          (* atomic.Int32 *)
}.

Definition NewAdaptiveBufferManager (maxMemort : Z) : AddaptiveBufferManager :=
  {| maxTotalMemory := maxMemort; suncriberCount := 0; bufferSize := MaxBufferSize |}.

(** [recalculate()], with [m.Alloc] (a [uint64]) read as [alloc]. *)
Definition recalculate (alloc : Z) (adm : AddaptiveBufferManager) : AddaptiveBufferManager :=
  let subCount := suncriberCount adm in
  if subCount =? 0 then adm
  else
    let currentMomory := toInt64 alloc in
    let availableMemory := toInt64 (maxTotalMemory adm - currentMomory) in
    let availableMemory := if availableMemory <? 0 then 0 else availableMemory in
    let memoryPerSub := Z.quot availableMemory subCount in
    let bufferPerSub := toInt32 (Z.quot memoryPerSub AvgMessSize) in
    let bufferPerSub := if bufferPerSub <? MinBifferSize then MinBifferSize else bufferPerSub in
    let bufferPerSub := if bufferPerSub >? MaxBufferSize then MaxBufferSize else bufferPerSub in
    {| maxTotalMemory := maxTotalMemory adm; suncriberCount := subCount;
       bufferSize := bufferPerSub |}.

Definition GetBufferSize (adm : AddaptiveBufferManager) : Z := bufferSize adm.

Definition AddNewSubscriber (adm : AddaptiveBufferManager) : AddaptiveBufferManager :=
  {| maxTotalMemory := maxTotalMemory adm; suncriberCount := toInt32 (suncriberCount adm + 1);
     bufferSize := bufferSize adm |}.

Definition OnSubscriberRemoval (adm : AddaptiveBufferManager) : AddaptiveBufferManager :=
  {| maxTotalMemory := maxTotalMemory adm; suncriberCount := toInt32 (suncriberCount adm - 1);
     bufferSize := bufferSize adm |}.

(* ------------------------------------------------------------------ *)
(** * TopicManager (internal/core/topic.go) *)

Record TopicManager := mkTM {
  bufferManager : AddaptiveBufferManager;
  topics : gmap string Topic
}.

(** [makeTopicKey]: [fmt.Sprintf("%s:%s", tenantID, topicName)]. *)
Definition makeTopicKey (tenant topicName : string) : string :=
  String.append tenant (String.append ":" topicName).

(** [getOrCreateTopic] (both probes of the double-checked lookup see the
    same map in a sequential run). *)
Definition getOrCreateTopic (tenant topicName : string) (now : Z) (tm : TopicManager)
  : option (Topic * TopicManager) :=
  let key := makeTopicKey tenant topicName in
  match topics tm !! key with
  | Some t => Some (t, tm)
  | None =>
      match NewTopic topicName tenant 100 now with
      | None => None
      | Some t => Some (t, {| bufferManager := bufferManager tm;
                              topics := <[key := t]> (topics tm) |})
      end
  end.

Definition put_topic (key : string) (t : Topic) (tm : TopicManager) : TopicManager :=
  {| bufferManager := bufferManager tm; topics := <[key := t]> (topics tm) |}.

(** [TopicManager.Publish(tenant_id, topic_name, msg)]. *)
Definition TM_Publish (tenant topicName : string) (msg : Message) (now : Z)
    (tm : TopicManager) : option TopicManager :=
  match getOrCreateTopic tenant topicName now tm with
  | None => None
  | Some (t, tm1) =>
      match Topic_Publish msg t with
      | None => None
      | Some t' => Some (put_topic (makeTopicKey tenant topicName) t' tm1)
      end
  end.

(** [TopicManager.Subscribe(tenant_id, topic_name, subscriberID, sub)]. *)
Definition TM_Subscribe (tenant topicName subscriberID : string) (sub : Subscriber)
    (now : Z) (tm : TopicManager) : option (option TopicError * TopicManager) :=
  if negb (String.eqb (SubTenantID sub) tenant) then Some (Some ErrTenantMismatch, tm)
  else
    match getOrCreateTopic tenant topicName now tm with
    | None => None
    | Some (t, tm1) =>
        let tm2 := {| bufferManager := AddNewSubscriber (bufferManager tm1);
                      topics := topics tm1 |} in
        let '(err, t') := Topic_Subscribe sub t in
        Some (err, put_topic (makeTopicKey tenant topicName) t' tm2)
    end.

(** The catch-up goroutine started by a subscribe to [key]. *)
Definition tm_catchup (key subID : string) (tm : TopicManager) : option TopicManager :=
  match topics tm !! key with
  | None => Some tm
  | Some t =>
      match topic_catchup subID t with
      | None => None
      | Some t' => Some (put_topic key t' tm)
      end
  end.

(* ------------------------------------------------------------------ *)
(** * Boundary adapters (internal/handlers) *)

(** Tenant resolution: [r.Context().Value("tenantId").(string)]; absent or
    empty gives ["default-tenant"]. *)
Definition resolve_tenant (ctxTenant : option string) : string :=
  match ctxTenant with
  | Some t => if String.eqb t "" then "default-tenant" else t
  | None => "default-tenant"
  end.

Inductive PublishResponse :=
  | PublishOK (message_id : string)
  | PublishFailed (status : Z).

(** [PublishHandler.ServeHTTP] for a decoded POST body [{topic, data}]
    ([data = None] is a missing object).  The throttle delay only sleeps;
    [GenerateId()] and [time.Now()] are [id] and [now]. *)
Definition PublishHandler (ctxTenant : option string) (topic : string)
    (data : option string) (id : string) (now : Z) (tm : TopicManager)
  : option (PublishResponse * TopicManager) :=
  let tenant_id := resolve_tenant ctxTenant in
  if String.eqb topic "" then Some (PublishFailed 400, tm)
  else match data with
       | None => Some (PublishFailed 400, tm)
       | Some d =>
           let msg := NewMessage topic tenant_id d id now in
           match TM_Publish tenant_id topic msg now tm with
           | None => None
           | Some tm' => Some (PublishOK (Id msg), tm')
           end
       end.

(** [SubscriberHandler.ServeHTTP] for a non-empty [topic] parameter, up to the point where it blocks on the
    subscriber's context, followed by the catch-up goroutine. *)
Definition SubscribeHandler (ctxTenant : option string) (topic subscriberID : string)
    (now : Z) (tm : TopicManager) : option (option TopicError * TopicManager) :=
  let tenant_id := resolve_tenant ctxTenant in
  match NewSubscriber subscriberID tenant_id topic (GetBufferSize (bufferManager tm)) now with
  | None => None
  | Some sub =>
      match TM_Subscribe tenant_id topic subscriberID sub now tm with
      | None => None
      | Some (Some e, tm') => Some (Some e, tm')
      | Some (None, tm') =>
          match tm_catchup (makeTopicKey tenant_id topic) subscriberID tm' with
          | None => None
          | Some tm'' => Some (None, tm'')
          end
      end
  end.

(* ------------------------------------------------------------------ *)
(** * AdaptiveThrottler (internal/throttle) *)

Record Config := mkConfig {
  CPUThreshold : Q;
  MemoryThreshold : Q;
  SlowSubThreshold : Q;
  ThrottleDuration : Z;
  CheckInterval : Z;
  MinPublishInterval : Z
}.

Definition DefaultConfig : Config :=
  {| CPUThreshold := 8 # 10; MemoryThreshold := 8 # 10; SlowSubThreshold := 5 # 10;
     ThrottleDuration := 5 * second; CheckInterval := 1 * second;
     MinPublishInterval := 10000000 |}.

(** [lastCheckTime] holds Unix seconds; [lastCPUUsage] and
    [lastMemoryUsage] hold the sampled fractions (the code stores them
    scaled by 10^6).  [pendingTimers] are the deadlines of the disarm
    goroutines started by [StartThrottling] that have not run yet (each
    sleeps [ThrottleDuration], so it runs at or after its deadline). *)
Record AdaptiveThrottler := mkThrottler {
  config : Config;
  isThrottling : bool;
  lastCheckTime : Z;
  slowSubCount : Z;
  totalSubCount : Z;
  lastCPUUsage : Q;
  lastMemoryUsage : Q;
  pendingTimers : list Z
}.

Definition set_throttling (at0 : AdaptiveThrottler) (b : bool) (timers : list Z)
  : AdaptiveThrottler :=
  {| config := config at0; isThrottling := b; lastCheckTime := lastCheckTime at0;
     slowSubCount := slowSubCount at0; totalSubCount := totalSubCount at0;
     lastCPUUsage := lastCPUUsage at0; lastMemoryUsage := lastMemoryUsage at0;
     pendingTimers := timers |}.

Definition set_check (at0 : AdaptiveThrottler) (t : Z) (cpu mem : Q) : AdaptiveThrottler :=
  {| config := config at0; isThrottling := isThrottling at0; lastCheckTime := t;
     slowSubCount := slowSubCount at0; totalSubCount := totalSubCount at0;
     lastCPUUsage := cpu; lastMemoryUsage := mem;
     pendingTimers := pendingTimers at0 |}.

(** [NewAdaptiveThrottler(config)] at time [now]. *)
Definition NewAdaptiveThrottler (cfg : Config) (now : Z) : AdaptiveThrottler :=
  {| config := cfg; isThrottling := false; lastCheckTime := now / second;
     slowSubCount := 0; totalSubCount := 0; lastCPUUsage := 0;
     lastMemoryUsage := 0; pendingTimers := [] |}.

(** [StartThrottling()] at time [now]. *)
Definition StartThrottling (now : Z) (at0 : AdaptiveThrottler) : AdaptiveThrottler :=
  set_throttling at0 true (now + ThrottleDuration (config at0) :: pendingTimers at0).

(** [StopThrottling()]. *)
Definition StopThrottling (at0 : AdaptiveThrottler) : AdaptiveThrottler :=
  set_throttling at0 false (pendingTimers at0).

(** [UpdateSubscriber(slowCount, totalCOunt)]. *)
Definition UpdateSubscriber (slowCount totalCOunt : Z) (at0 : AdaptiveThrottler)
  : AdaptiveThrottler :=
  {| config := config at0; isThrottling := isThrottling at0;
     lastCheckTime := lastCheckTime at0;
     slowSubCount := toInt32 slowCount; totalSubCount := toInt32 totalCOunt;
     lastCPUUsage := lastCPUUsage at0; lastMemoryUsage := lastMemoryUsage at0;
     pendingTimers := pendingTimers at0 |}.

(** [getCPUUsage()] from [runtime.NumGoroutine()]. *)
Definition getCPUUsage (numGoroutines : Z) : Q :=
  if numGoroutines >? 10000 then 9 # 10
  else if numGoroutines >? 5000 then 7 # 10
  else if numGoroutines >? 1000 then 5 # 10
  else (inject_Z numGoroutines / 1000)%Q.

(** [getMemoryUsage()] from [m.Alloc], against the fixed 2 GiB ceiling. *)
Definition getMemoryUsage (alloc : Z) : Q :=
  let usage := (inject_Z alloc / inject_Z (2 * 1024 * 1024 * 1024))%Q in
  if negb (Qle_bool usage 1) then 1%Q else usage.

Definition Qlt_bool (x y : Q) : bool := negb (Qle_bool y x).

(** [ShouldThrottle()] at time [now] (ns), with the goroutine count and the
    heap size read by the samplers. *)
Definition ShouldThrottle (now numGoroutines alloc : Z) (at0 : AdaptiveThrottler)
  : bool * AdaptiveThrottler :=
  if isThrottling at0 then (true, at0)
  else
    let lastCheck := lastCheckTime at0 * second in
    if now - lastCheck <? CheckInterval (config at0) then (isThrottling at0, at0)
    else
      let cpuUsage := getCPUUsage numGoroutines in
      let memoryUsage := getMemoryUsage alloc in
      let at1 := set_check at0 (now / second) cpuUsage memoryUsage in
      let slowSubs := inject_Z (slowSubCount at1) in
      let totalSubs := inject_Z (totalSubCount at1) in
      if totalSubCount at1 =? 0 then (false, at1)
      else
        let slowSubPercentage := (slowSubs / totalSubs)%Q in
        let cfg := config at1 in
        let shouldThrottle :=
          Qlt_bool (SlowSubThreshold cfg) slowSubPercentage &&
          (Qlt_bool (CPUThreshold cfg) cpuUsage || Qlt_bool (MemoryThreshold cfg) memoryUsage) in
        if shouldThrottle then (true, StartThrottling now at1) else (false, at1).

(** Events of the throttle flag: an arm ([StartThrottling], directly or
    from [ShouldThrottle]) at the current time, the clock advancing, and a
    pending disarm goroutine running. *)
Inductive ThrottleEvent :=
  | EvArm
  | EvAdvance (t : Z)
  | EvTimer (deadline : Z).

Fixpoint remove_first (d : Z) (l : list Z) : list Z :=
  match l with
  | [] => []
  | x :: r => if Z.eqb x d then r else x :: remove_first d r
  end.

Definition throttle_event (ev : ThrottleEvent) (st : Z * AdaptiveThrottler)
  : option (Z * AdaptiveThrottler) :=
  let '(now, at0) := st in
  match ev with
  | EvArm => Some (now, StartThrottling now at0)
  | EvAdvance t => if now <=? t then Some (t, at0) else None
  | EvTimer d =>
      if existsb (Z.eqb d) (pendingTimers at0) && (d <=? now)
      then Some (now, StopThrottling (set_throttling at0 (isThrottling at0)
                                        (remove_first d (pendingTimers at0))))
      else None
  end.

Fixpoint run_throttle (evs : list ThrottleEvent) (st : Z * AdaptiveThrottler)
  : option (Z * AdaptiveThrottler) :=
  match evs with
  | [] => Some st
  | ev :: rest => match throttle_event ev st with
                  | None => None
                  | Some st' => run_throttle rest st'
                  end
  end.

(** The spec's clamp to [[lo, hi]]. *)
Definition clamp (x lo hi : Z) : Z := Z.max lo (Z.min hi x).

(* ------------------------------------------------------------------ *)
(** * Sample runs *)

(** Publishing a sequence of messages to one subscriber, one
    [SendMessages] per publish (errors are logged by the fan-out). *)
Fixpoint send_all (msgs : list Message) (s : Subscriber) : option Subscriber :=
  match msgs with
  | [] => Some s
  | m :: rest =>
      match SendMessages m s with
      | None => None
      | Some (_, s') => send_all rest s'
      end
  end.

(** A fresh topic manager with the default 2048 MiB budget. *)
Definition demo_tm0 : TopicManager :=
  mkTM (NewAdaptiveBufferManager (2048 * 1024 * 1024)) ∅.

(** A CircuitBreaker subscriber with capacity 1 and a stalled transport:
    the delivery loop holds one message in a write that never completes
    and the inbox holds another. *)
Definition demo_cb_sub : Subscriber :=
  {| ID := "cb"; SubTenantID := "default-tenant"; SubTopic := "orders";
     messageChan := [demo_msg 2]; chanCap := 1; dropStrategy := CIRCUIT_BREAKER;
     droppedCount := 0; messagesRecieved := 2; messagesSent := 0;
     lastActive := 0; closed := false; inFlight := Some (demo_msg 1) |}.

Definition demo_burst (n : nat) : list Message :=
  map (fun i => demo_msg (Z.of_nat i)) (seq 3 n).

(* ------------------------------------------------------------------ *)
(** * Membership, counting and shutdown (internal/core/topic.go) *)

(** [Topic.Unsubscribe(subscriberID)]: the error value, the topic after
    the removal, and the removed subscriber object after its [Close()]
    (other goroutines, such as the catch-up, may still hold it). *)
Definition Topic_Unsubscribe (subscriberID : string) (t : Topic)
  : option TopicError * Topic * option Subscriber :=
  match subscribers t !! subscriberID with
  | None => (Some ErrNotFound, t, None)
  | Some sub =>
      (None, set_topic t (delete subscriberID (subscribers t)) (recentCache t)
               (messagesPublished t) (totalSubscribers t),
       Some (Close sub))
  end.

(** [Topic.GetSubscriberCount()]: [len(t.subscribers)]. *)
Definition GetSubscriberCount (t : Topic) : Z :=
  Z.of_nat (stdpp.base.size (subscribers t)).

(** [Topic.GetSlowSubscriberCount()]. *)
Definition GetSlowSubscriberCount (t : Topic) : Z :=
  map_fold (fun _ sub count => if IsSlow sub then count + 1 else count) 0 (subscribers t).

(** [TopicManager.Unsubscribe(tenant_id, topic_name, subscriberID)]. *)
Definition TM_Unsubscribe (tenant topicName subscriberID : string) (tm : TopicManager)
  : option TopicError * TopicManager :=
  let topicKey := makeTopicKey tenant topicName in
  match topics tm !! topicKey with
  | None => (Some ErrNotFound, tm)
  | Some t =>
      match Topic_Unsubscribe subscriberID t with
      | (Some e, _, _) => (Some e, tm)
      | (None, t', _) =>
          (None, {| bufferManager := OnSubscriberRemoval (bufferManager tm);
                    topics := <[topicKey := t']> (topics tm) |})
      end
  end.

(** [TopicManager.GetTopic(tenant_id, topic_name)]; [None] is the
    "topic not found" error. *)
Definition GetTopic (tenant topicName : string) (tm : TopicManager) : option Topic :=
  topics tm !! makeTopicKey tenant topicName.

(** [TopicManager.GetTopicCount()]. *)
Definition GetTopicCount (tm : TopicManager) : Z :=
  Z.of_nat (stdpp.base.size (topics tm)).

(** [TopicManager.GetTotalSubscriberCount()]. *)
Definition TM_GetTotalSubscriberCount (tm : TopicManager) : Z :=
  map_fold (fun _ topic total => total + GetSubscriberCount topic) 0 (topics tm).

(** [TopicManager.GetSlowSubscriberCount()]. *)
Definition TM_GetSlowSubscriberCount (tm : TopicManager) : Z :=
  map_fold (fun _ topic total => total + GetSlowSubscriberCount topic) 0 (topics tm).

(** One tick of [monitoLoop]: the counts are handed to the throttler. *)
Definition monitor_tick (tm : TopicManager) (at0 : AdaptiveThrottler) : AdaptiveThrottler :=
  let TotalSubCount := TM_GetTotalSubscriberCount tm in
  let SlowSubCount := TM_GetSlowSubscriberCount tm in
  UpdateSubscriber SlowSubCount TotalSubCount at0.

(** The subscriber loop of [TopicManager.ShutDown()] (under [shutDownOnce];
    closing [shutDownChan] only stops [monitoLoop]): every subscriber of
    every topic is closed and stays in its topic. *)
Definition TM_ShutDown (tm : TopicManager) : TopicManager :=
  {| bufferManager := bufferManager tm;
     topics := (fun topic => set_topic topic (Close <$> subscribers topic) (recentCache topic)
                               (messagesPublished topic) (totalSubscribers topic))
               <$> topics tm |}.

(* ------------------------------------------------------------------ *)
(** * The buffer manager over time (internal/buffer) *)

(** What happens to the manager: a [monitorLoop] tick reading [m.Alloc],
    and the topic manager's [AddNewSubscriber] / [OnSubscriberRemoval]. *)
Inductive ABMEvent :=
  | EvRecalc (alloc : Z)
  | EvAddSub
  | EvRemoveSub.

Definition abm_event (ev : ABMEvent) (adm : AddaptiveBufferManager) : AddaptiveBufferManager :=
  match ev with
  | EvRecalc alloc => recalculate alloc adm
  | EvAddSub => AddNewSubscriber adm
  | EvRemoveSub => OnSubscriberRemoval adm
  end.

Fixpoint run_abm (evs : list ABMEvent) (adm : AddaptiveBufferManager) : AddaptiveBufferManager :=
  match evs with
  | [] => adm
  | ev :: rest => run_abm rest (abm_event ev adm)
  end.

(** Every topic of the manager keeps a reachable cache of positive size
    (as [getOrCreateTopic] makes them, of size 100). *)
Definition tm_caches_ok (tm : TopicManager) : Prop :=
  forall k t, topics tm !! k = Some t -> cache_reach (recentCache t) /\ 0 < size (recentCache t).

(** A sample subscriber of the default tenant, a topic holding it with a
    fresh cache of the default size 100, and a manager holding that topic. *)
Definition demo_sub : Subscriber :=
  mkSubscriber "s" "default-tenant" "orders" [] 100 DROP_OLDEST 0 0 0 0 false None.
Definition demo_topic1 : Topic :=
  mkTopic "orders" "default-tenant" {[ "s" := demo_sub ]}
    (mkCache (replicate 100 zeroMessage) 100 0 0) 0 1 0.
Definition demo_tm1 : TopicManager :=
  mkTM (NewAdaptiveBufferManager (2048 * 1024 * 1024))
    {[ makeTopicKey "default-tenant" "orders" := demo_topic1 ]}.

(** Invariant of the throttle flag after an arm at [a] made with no timer
    pending, for a throttle duration [D]. *)
Definition after_fresh_arm (a D : Z) (cfg : Config) (st : Z * AdaptiveThrottler) : Prop :=
  config (snd st) = cfg /\ a <= fst st /\
  Forall (fun d => a + D <= d) (pendingTimers (snd st)) /\
  (fst st < a + D -> isThrottling (snd st) = true).

(* ================================================================== *)
(** * Theorems *)

(** ** Arithmetic and list helpers *)

Lemma mod_distinct (N p L : Z) :
  0 < N -> L - N < p < L -> p mod N <> L mod N.
Proof.
  intros HN Hp Heq.
  pose proof (Z.div_mod p N ltac:(lia)) as Ep.
  pose proof (Z.div_mod L N ltac:(lia)) as EL.
  assert (Hk : L - p = N * (L / N - p / N)) by lia.
  destruct (Z_le_gt_dec (L / N - p / N) 0) as [Hle|Hgt]; nia.
Qed.

Lemma slice_get_in {A} (l : list A) (i : Z) :
  0 <= i < Z.of_nat (length l) -> exists x, slice_get l i = Some x.
Proof.
  intros Hi. unfold slice_get.
  destruct (i <? 0) eqn:E; [lia|].
  destruct (lookup_lt_is_Some_2 l (Z.to_nat i)) as [x Hx]; [lia|].
  eauto.
Qed.

Lemma copy_loop_spec (ms : list Message) (h : list Message) (sz sp b : Z) :
  forall (k : nat) (i : Z),
    0 <= b + i ->
    b + i + Z.of_nat k <= Z.of_nat (length h) ->
    (forall t, 0 <= t < Z.of_nat k ->
       slice_get ms (go_rem (sp + i + t) sz) = h !! Z.to_nat (b + i + t)) ->
    copy_loop ms sz sp i k = Some (take k (drop (Z.to_nat (b + i)) h)).
Proof.
  induction k as [|k IH]; intros i Hb Hlen Hget; simpl; [done|].
  assert (Hx : is_Some (h !! Z.to_nat (b + i))) by
    (apply lookup_lt_is_Some_2; lia).
  destruct Hx as [x Hx].
  pose proof (Hget 0 ltac:(lia)) as H0.
  rewrite !Z.add_0_r, Hx in H0. rewrite H0.
  rewrite (IH (i + 1)); [| lia | lia |].
  - rewrite (drop_S h x (Z.to_nat (b + i)) Hx). simpl.
    by replace (Z.to_nat (b + (i + 1))) with (S (Z.to_nat (b + i))) by lia.
  - intros t Ht.
    replace (sp + (i + 1) + t) with (sp + i + (t + 1)) by lia.
    replace (b + (i + 1) + t) with (b + i + (t + 1)) by lia.
    apply Hget. lia.
Qed.

(** ** RecentMessageCache *)

Lemma new_cache_models (N : Z) (c : RecentMessageCache) :
  0 < N -> NewRecentMessageCache N = Some c -> cache_models [] c.
Proof.
  intros HN Hc. unfold NewRecentMessageCache in Hc.
  destruct (N <? 0) eqn:E; [lia|]. injection Hc as <-.
  unfold cache_models; simpl. rewrite length_replicate.
  repeat split; try lia.
Qed.

Lemma add_models (h : list Message) (c : RecentMessageCache) (m : Message) :
  cache_models h c ->
  exists c', Add m c = Some c' /\ cache_models (h ++ [m]) c'.
Proof.
  intros (Hsz & Hlen & Hcnt & Hidx & Hpos).
  set (L := Z.of_nat (length h)) in *.
  pose proof (Z.mod_pos_bound L (size c) Hsz) as Hb.
  unfold Add, slice_set.
  replace ((0 <=? index c) && (index c <? Z.of_nat (length (messages c))))
    with true by (symmetry; apply andb_true_intro; split; lia).
  destruct (size c =? 0) eqn:Ez; [lia|].
  eexists; split; [reflexivity|].
  unfold cache_models; simpl.
  rewrite length_app; simpl.
  replace (Z.of_nat (length h + 1)) with (L + 1) by (unfold L; lia).
  repeat split.
  - lia.
  - rewrite length_insert; lia.
  - destruct (count c <? size c) eqn:Ec; lia.
  - unfold go_rem. rewrite Z.rem_mod_nonneg by lia.
    rewrite Hidx, Zplus_mod_idemp_l. reflexivity.
  - intros p Hp.
    assert (Hc' : (if count c <? size c then count c + 1 else count c) <= count c + 1)
      by (destruct (count c <? size c); lia).
    assert (HcN : (if count c <? size c then count c + 1 else count c) <= size c)
      by (destruct (count c <? size c) eqn:E; lia).
    pose proof (Z.mod_pos_bound p (size c) Hsz) as Hpb.
    unfold slice_get.
    destruct (p mod size c <? 0) eqn:En; [lia|].
    destruct (Z.eq_dec p L) as [->|Hne].
    + rewrite <- Hidx.
      replace (Z.to_nat (index c)) with (Z.to_nat (index c)) by reflexivity.
      rewrite list_lookup_insert_eq by lia.
      rewrite lookup_app_r by (unfold L; lia).
      replace (Z.to_nat L - length h)%nat with 0%nat by (unfold L; lia).
      reflexivity.
    + rewrite list_lookup_insert_ne.
      * pose proof (Hpos p ltac:(lia)) as Hp'.
        unfold slice_get in Hp'. rewrite En in Hp'. rewrite Hp'.
        rewrite lookup_app_l by (unfold L in *; lia). reflexivity.
      * intros Heq. apply (mod_distinct (size c) p L); [lia | lia |].
        rewrite <- Hidx. lia.
Qed.

Lemma add_all_models (h0 h : list Message) (c : RecentMessageCache) :
  cache_models h0 c ->
  exists c', add_all h c = Some c' /\ cache_models (h0 ++ h) c'.
Proof.
  revert h0 c. induction h as [|m h IH]; intros h0 c Hc; simpl.
  - rewrite app_nil_r. eauto.
  - destruct (add_models h0 c m Hc) as (c1 & -> & Hc1).
    destruct (IH _ _ Hc1) as (c' & E & Hc').
    rewrite <- app_assoc in Hc'. eauto.
Qed.

Lemma getlast_models (h : list Message) (c : RecentMessageCache) (k : Z) :
  cache_models h c -> 0 <= k ->
  GetLast c k = Some (most_recent (Z.to_nat (Z.min k (count c))) h).
Proof.
  intros (Hsz & Hlen & Hcnt & Hidx & Hpos) Hk.
  set (L := Z.of_nat (length h)) in *.
  pose proof (Z.mod_pos_bound L (size c) Hsz) as Hb.
  unfold GetLast.
  set (n := if k >? count c then count c else k).
  assert (Hn : n = Z.min k (count c)) by
    (unfold n; destruct (k >? count c) eqn:E; lia).
  rewrite <- Hn. unfold most_recent.
  destruct (n =? 0) eqn:E0.
  { assert (n = 0) by lia. subst n. rewrite H. simpl.
    rewrite Nat.sub_0_r, drop_all. reflexivity. }
  destruct (n <? 0) eqn:En; [lia|].
  rewrite (copy_loop_spec (messages c) h (size c) _ (L - n)).
  - rewrite Z.add_0_r.
    rewrite take_ge.
    + f_equal. f_equal. unfold L. lia.
    + rewrite length_drop. unfold L in *. lia.
  - lia.
  - unfold L in *. lia.
  - intros t Ht. rewrite Z.add_0_r.
    unfold go_rem.
    rewrite (Z.rem_mod_nonneg (index c - n + size c)) by lia.
    assert (0 <= (index c - n + size c) mod size c) by
      (apply Z.mod_pos_bound; lia).
    rewrite Z.rem_mod_nonneg by lia.
    rewrite Zplus_mod_idemp_l, Hidx.
    replace (L mod size c - n + size c + t) with
      (L mod size c + (- n + size c + t)) by lia.
    rewrite Zplus_mod_idemp_l.
    replace (L + (- n + size c + t)) with ((L - n + t) + 1 * size c) by lia.
    rewrite Z.mod_add by lia.
    rewrite Z.add_0_r. apply Hpos. lia.
Qed.

Lemma add_wf (m : Message) (c c' : RecentMessageCache) :
  cache_wf c -> Add m c = Some c' -> cache_wf c'.
Proof.
  intros (Hl & Hc & Hi & Hi') HA. unfold Add, slice_set in HA.
  destruct ((0 <=? index c) && (index c <? Z.of_nat (length (messages c)))) eqn:Eb;
    [|discriminate].
  apply andb_true_iff in Eb as [_ Eb].
  destruct (size c =? 0) eqn:Ez; [discriminate|].
  injection HA as <-. unfold cache_wf; simpl.
  rewrite length_insert. unfold go_rem.
  assert (0 < size c) by lia.
  rewrite Z.rem_mod_nonneg by lia.
  pose proof (Z.mod_pos_bound (index c + 1) (size c) ltac:(lia)).
  destruct (count c <? size c) eqn:Ec; repeat split; lia.
Qed.

Lemma reach_wf (c : RecentMessageCache) : cache_reach c -> cache_wf c.
Proof.
  induction 1 as [N c Hn | m c c' _ IH HA | c _ IH].
  - unfold NewRecentMessageCache in Hn. destruct (N <? 0) eqn:E; [discriminate|].
    injection Hn as <-. unfold cache_wf; simpl. rewrite length_replicate. lia.
  - eapply add_wf; eauto.
  - destruct IH as (Hl & Hc & Hi & _). unfold cache_wf, Clear; simpl. lia.
Qed.

Lemma copy_loop_total (ms : list Message) (sz sp : Z) :
  forall (k : nat) (i : Z),
    (forall t, 0 <= t < Z.of_nat k ->
       0 <= go_rem (sp + i + t) sz < Z.of_nat (length ms)) ->
    exists l, copy_loop ms sz sp i k = Some l /\ length l = k.
Proof.
  induction k as [|k IH]; intros i Hr; simpl; [eauto|].
  destruct (slice_get_in ms (go_rem (sp + i) sz)) as [x Hx].
  { pose proof (Hr 0 ltac:(lia)). rewrite Z.add_0_r in H. exact H. }
  rewrite Hx.
  destruct (IH (i + 1)) as (l & -> & <-).
  - intros t Ht. replace (sp + (i + 1) + t) with (sp + i + (t + 1)) by lia.
    apply Hr. lia.
  - eauto.
Qed.

Lemma add_all_reach (h : list Message) (c c' : RecentMessageCache) :
  cache_reach c -> add_all h c = Some c' -> cache_reach c'.
Proof.
  revert c. induction h as [|m h IH]; intros c Hr E; simpl in E.
  - by injection E as <-.
  - destruct (Add m c) as [c1|] eqn:EA; [|discriminate].
    apply (IH c1); [eapply reach_add; eauto | exact E].
Qed.

(** ** C7 *)

(** C7: for every sequence [h] of [Add]s on a fresh cache of capacity
    [N > 0], the stored count never exceeds [N] (it is [min(|h|, N)]), and
    for every [k >= 0], [GetLast(k)] returns the [min(k, count)] most recent
    messages of [h] in insertion order (oldest first), so [GetAll] returns
    the last [N] (the oldest are evicted) and an empty cache returns []. *)
Theorem RecentCache_add_getlast (N : Z) (h : list Message)
    (c0 c : RecentMessageCache) :
  0 < N ->
  NewRecentMessageCache N = Some c0 ->
  add_all h c0 = Some c ->
  count c <= N /\
  count c = Z.min (Z.of_nat (length h)) N /\
  (forall k, 0 <= k ->
     GetLast c k = Some (most_recent (Z.to_nat (Z.min k (count c))) h)) /\
  GetAll c = Some (most_recent (Z.to_nat N) h) /\
  (count c = 0 -> forall k, 0 <= k -> GetLast c k = Some []).
Proof.
  intros HN Hnew Hadd.
  pose proof (new_cache_models N c0 HN Hnew) as H0.
  destruct (add_all_models [] h c0 H0) as (c' & Hc' & Hm).
  rewrite Hadd in Hc'. injection Hc' as <-. simpl in Hm.
  assert (Hsz : size c = N).
  { destruct Hm as (_ & _ & Hcnt & _).
    clear Hcnt.
    assert (forall h' c1 c2, add_all h' c1 = Some c2 -> size c2 = size c1) as Hs.
    { induction h' as [|m h' IH]; intros c1 c2 E; simpl in E.
      - by injection E as <-.
      - destruct (Add m c1) eqn:EA; [|discriminate].
        rewrite (IH _ _ E). unfold Add in EA.
        destruct (slice_set (messages c1) (index c1) m); [|discriminate].
        destruct (size c1 =? 0); [discriminate|]. by injection EA as <-. }
    rewrite (Hs _ _ _ Hadd).
    unfold NewRecentMessageCache in Hnew. destruct (N <? 0); [discriminate|].
    by injection Hnew as <-. }
  pose proof Hm as (_ & _ & Hcnt & _). rewrite Hsz in Hcnt.
  split; [lia|]. split; [exact Hcnt|]. split; [|split].
  - intros k Hk. by apply getlast_models.
  - unfold GetAll. rewrite (getlast_models h c (count c) Hm) by lia.
    f_equal. unfold most_recent. f_equal. lia.
  - intros H0c k Hk. rewrite (getlast_models h c k Hm Hk).
    rewrite H0c. unfold most_recent.
    assert (length h = 0%nat) by lia.
    destruct h; [reflexivity | simpl in *; lia].
Qed.

(** Witness of C7: capacity 3, four messages; [GetLast(2)] gives the
    messages 3 and 4, [GetAll] the messages 2, 3 and 4. *)
Lemma RecentCache_add_getlast_witness :
  NewRecentMessageCache 3 = Some demo_cache0 /\
  add_all demo_hist demo_cache0 = Some demo_cache /\
  GetLast demo_cache 2 = Some [demo_msg 3; demo_msg 4] /\
  GetAll demo_cache = Some [demo_msg 2; demo_msg 3; demo_msg 4].
Proof.
  pose proof (RecentCache_add_getlast 3 demo_hist demo_cache0 demo_cache
                ltac:(lia) eq_refl eq_refl) as (_ & _ & Hk & Hall & _).
  split; [reflexivity|]. split; [reflexivity|]. split.
  - rewrite (Hk 2 ltac:(lia)). reflexivity.
  - rewrite Hall. reflexivity.
Defined.

(** ** C10 *)

(** C10: on every reachable cache, [GetLast(n)] returns normally for every
    [n >= 0] with a list of length [min(n, count)]; for [n < 0] and
    [count > 0] it panics ([make] with a negative length); the internal
    callers never reach that branch: [GetAll] passes [count >= 0] and the
    catch-up passes 50, and both return normally. *)
Theorem GetLast_total_nonneg (c : RecentMessageCache) :
  cache_reach c ->
  (forall n, 0 <= n -> exists l, GetLast c n = Some l /\
                        Z.of_nat (length l) = Z.min n (count c)) /\
  (forall n, n < 0 -> 0 < count c -> GetLast c n = None) /\
  (0 <= count c /\ exists l, GetAll c = Some l) /\
  (exists l, GetLast c 50 = Some l).
Proof.
  intros Hr. pose proof (reach_wf c Hr) as (Hl & Hc & Hi & Hi').
  assert (Htot : forall n, 0 <= n -> exists l, GetLast c n = Some l /\
                   Z.of_nat (length l) = Z.min n (count c)).
  { intros n Hn. unfold GetLast.
    set (n' := if n >? count c then count c else n).
    assert (Hn' : n' = Z.min n (count c)) by
      (unfold n'; destruct (n >? count c) eqn:E; lia).
    rewrite <- Hn'.
    destruct (n' =? 0) eqn:E0; [exists []; split; [reflexivity | simpl; lia]|].
    destruct (n' <? 0) eqn:En; [lia|].
    destruct (copy_loop_total (messages c) (size c)
                (go_rem (index c - n' + size c) (size c)) (Z.to_nat n') 0)
      as (l & El & Ll).
    - intros t Ht. unfold go_rem.
      assert (0 < size c) by lia.
      rewrite (Z.rem_mod_nonneg (index c - n' + size c)) by lia.
      pose proof (Z.mod_pos_bound (index c - n' + size c) (size c) ltac:(lia)).
      rewrite Z.rem_mod_nonneg by lia.
      pose proof (Z.mod_pos_bound ((index c - n' + size c) mod size c + 0 + t)
                    (size c) ltac:(lia)).
      lia.
    - exists l. split; [exact El | lia]. }
  split; [exact Htot|]. split; [|split].
  - intros n Hn Hc0. unfold GetLast.
    destruct (n >? count c) eqn:E1; [lia|].
    destruct (n =? 0) eqn:E2; [lia|].
    destruct (n <? 0) eqn:E3; [reflexivity | lia].
  - split; [lia|]. destruct (Htot (count c)) as (l & E & _); [lia|].
    exists l. exact E.
  - destruct (Htot 50) as (l & E & _); [lia|]. eauto.
Qed.

(** Witness of C10: the sample ring is reachable (fresh cache, four [Add]s). *)
Lemma GetLast_total_nonneg_witness :
  cache_reach demo_cache /\
  exists l, GetLast demo_cache 50 = Some l /\ Z.of_nat (length l) = 3.
Proof.
  assert (Hr : cache_reach demo_cache).
  { apply (add_all_reach demo_hist demo_cache0); [| reflexivity].
    apply (reach_new 3). reflexivity. }
  split; [exact Hr|].
  destruct (GetLast_total_nonneg demo_cache Hr) as (Htot & _ & _ & _).
  destruct (Htot 50 ltac:(lia)) as (l & El & Ll).
  exists l. split; [exact El|]. rewrite Ll. reflexivity.
Defined.

(** ** C1 *)

(** C1 (fails): tenant isolation breaks when the composite key
    ["tenant:name"] is ambiguous.  A subscriber of tenant ["a:b"] on topic
    ["c"] and a publish by tenant ["a"] to topic ["b:c"] share the key
    ["a:b:c"]; the publish reaches the topic of tenant ["a:b"], and the
    tenant-["a"] message lands in the inbox of the tenant-["a:b"]
    subscriber. *)
Theorem tenant_isolation_key_collision :
  exists tm1 tm2,
    SubscribeHandler (Some "a:b") "c" "s1" 0 demo_tm0 = Some (None, tm1) /\
    PublishHandler (Some "a") "b:c" (Some "{}") "msg-1" 1 tm1 = Some (PublishOK "msg-1", tm2) /\
    exists t s m,
      topics tm2 !! "a:b:c" = Some t /\ tenantID t = "a:b" /\
      subscribers t !! "s1" = Some s /\ SubTenantID s = "a:b" /\
      messageChan s = [m] /\ TenantID m = "a" /\ TenantID m <> SubTenantID s.
Proof.
  do 2 eexists. split; [vm_compute; reflexivity|]. split; [vm_compute; reflexivity|].
  do 3 eexists. vm_compute.
  split; [reflexivity|]. split; [reflexivity|]. split; [reflexivity|].
  split; [reflexivity|]. split; [reflexivity|]. split; [reflexivity|].
  discriminate.
Qed.

(** ** C2 *)

Lemma circuit_breaker_never_counts (msgs : list Message) (s : Subscriber) :
  dropStrategy s = CIRCUIT_BREAKER -> closed s = false -> droppedCount s = 0 ->
  Z.of_nat (length (messageChan s)) = chanCap s ->
  exists s', send_all msgs s = Some s' /\ closed s' = false /\
             droppedCount s' = 0 /\ messageChan s' = messageChan s.
Proof.
  revert s. induction msgs as [|m msgs IH]; intros s Hst Hcl Hd Hfull; simpl.
  - eauto.
  - unfold SendMessages, chan_try_send. simpl.
    rewrite Hcl, Hfull, Z.ltb_irrefl.
    unfold handleBackPressure. simpl. rewrite Hst. simpl. rewrite Hd. simpl.
    destruct (IH (set_counters s 0 (messagesRecieved s + 1) (messagesSent s)))
      as (s' & E & H1 & H2 & H3); simpl; auto.
    exists s'. rewrite E. auto.
Qed.

(** C2 (fails): a CircuitBreaker subscriber with capacity 1 and a stalled
    transport that receives 101 (indeed any number of) messages that each
    find the inbox full is never closed: the CircuitBreaker branch never
    increments [droppedCount], so the test [dropped > 100] never holds. *)
Theorem circuit_breaker_101_not_closed :
  exists s', send_all (demo_burst 101) demo_cb_sub = Some s' /\
             closed s' = false /\ droppedCount s' = 0 /\
             messagesRecieved s' = 103.
Proof.
  destruct (circuit_breaker_never_counts (demo_burst 101) demo_cb_sub
              eq_refl eq_refl eq_refl eq_refl) as (s' & E & Hc & Hd & _).
  exists s'. split; [exact E|]. split; [exact Hc|]. split; [exact Hd|].
  revert E. vm_compute. intros E. injection E as <-. reflexivity.
Qed.

(** ** C3 *)

Lemma send_accounted (m : Message) (s s' : Subscriber) (e : option SendError) :
  (dropStrategy s = DROP_OLDEST \/ dropStrategy s = DROP_NEWEST) ->
  accounted s -> SendMessages m s = Some (e, s') ->
  accounted s' /\ dropStrategy s' = dropStrategy s.
Proof.
  intros Hst Ha HS. unfold SendMessages in HS. simpl in HS.
  destruct (closed s) eqn:Ec; [discriminate|].
  unfold accounted, in_flight_count in *.
  unfold chan_try_send in HS; simpl in HS.
  destruct (Z.of_nat (length (messageChan s)) <? chanCap s) eqn:Ef.
  { injection HS as <- <-. simpl. rewrite length_app. simpl. split; [lia | reflexivity]. }
  unfold handleBackPressure in HS; simpl in HS.
  destruct Hst as [Hst | Hst]; rewrite Hst in HS; simpl in HS.
  - unfold chan_try_recv in HS; simpl in HS.
    destruct (messageChan s) as [|m0 rest] eqn:Ech; simpl in HS.
    + unfold chan_try_send in HS; simpl in HS. rewrite Ech, Ef in HS.
      injection HS as <- <-. simpl. rewrite Ech. simpl in *. split; [lia | reflexivity].
    + unfold chan_try_send in HS; simpl in HS.
      destruct (Z.of_nat (length rest) <? chanCap s) eqn:Ef2.
      * injection HS as <- <-. simpl. rewrite length_app. simpl.
        simpl in Ha. split; [lia | reflexivity].
      * injection HS as <- <-. simpl. simpl in Ha. split; [lia | reflexivity].
  - injection HS as <- <-. simpl. split; [lia | reflexivity].
Qed.

Lemma Close_accounted (s : Subscriber) :
  accounted s -> accounted (Close s) /\ dropStrategy (Close s) = dropStrategy s.
Proof.
  intros Ha. unfold Close. destruct (closed s); [auto|].
  unfold accounted, in_flight_count in *. simpl. split; [lia | reflexivity].
Qed.

Lemma Close_closed_id (s : Subscriber) : closed s = true -> Close s = s.
Proof. intros E. unfold Close. rewrite E. reflexivity. Qed.

Lemma SendMessages_closed_none (m : Message) (s : Subscriber) :
  closed s = true -> SendMessages m s = None.
Proof. intros E. unfold SendMessages. simpl. rewrite E. reflexivity. Qed.

Lemma step_inv (ev : SubEvent) (s s' : Subscriber) (ls ls' : LoopStatus) :
  (dropStrategy s = DROP_OLDEST \/ dropStrategy s = DROP_NEWEST) ->
  sub_inv s ls -> sub_step ev s ls = Some (s', ls') ->
  sub_inv s' ls' /\ dropStrategy s' = dropStrategy s.
Proof.
  intros Hst Hi Hs.
  destruct ls; [| | ].
  - (* the loop is running *)
    destruct ev as [m | | now | | |]; simpl in Hs.
    + destruct (SendMessages m s) as [[e s'']|] eqn:HS; [|discriminate].
      injection Hs as <- <-. eapply send_accounted; eauto.
    + unfold loop_recv in Hs. unfold sub_inv, accounted, in_flight_count in *.
      destruct (inFlight s) eqn:Ef; [discriminate|].
      destruct (messageChan s) as [|m rest] eqn:Ech; [discriminate|].
      injection Hs as <- <-. simpl. simpl in Hi. split; [lia | reflexivity].
    + unfold loop_write_ok in Hs. unfold sub_inv, accounted, in_flight_count in *.
      destruct (inFlight s) eqn:Ef; [|discriminate].
      injection Hs as <- <-. simpl. split; [lia | reflexivity].
    + unfold loop_write_fail in Hs. unfold sub_inv, accounted, in_flight_count in *.
      destruct (inFlight s) eqn:Ef; [|discriminate].
      injection Hs as <- <-. unfold Close. simpl.
      destruct (closed s); simpl; (split; [split; [reflexivity | split; [reflexivity | lia]]
                                          | reflexivity]).
    + destruct (inFlight s) eqn:Ef; [discriminate|].
      injection Hs as <- <-. split; [exact Hi | reflexivity].
    + injection Hs as <- <-. apply Close_accounted. exact Hi.
  - (* a write has failed: the state is frozen *)
    destruct Hi as (Hc & Hf & Heq).
    destruct ev as [m | | now | | |]; simpl in Hs; try discriminate.
    + rewrite (SendMessages_closed_none m s Hc) in Hs. discriminate.
    + injection Hs as <- <-. rewrite (Close_closed_id s Hc).
      split; [split; [exact Hc | split; [exact Hf | exact Heq]] | reflexivity].
  - (* the loop has returned *)
    destruct ev as [m | | now | | |]; simpl in Hs; try discriminate.
    + destruct (SendMessages m s) as [[e s'']|] eqn:HS; [|discriminate].
      injection Hs as <- <-. eapply send_accounted; eauto.
    + injection Hs as <- <-. apply Close_accounted. exact Hi.
Qed.

Lemma run_inv (evs : list SubEvent) (s s' : Subscriber) (ls ls' : LoopStatus) :
  (dropStrategy s = DROP_OLDEST \/ dropStrategy s = DROP_NEWEST) ->
  sub_inv s ls -> run_sub evs s ls = Some (s', ls') -> sub_inv s' ls'.
Proof.
  revert s ls. induction evs as [|ev evs IH]; intros s ls Hst Hi Hr; simpl in Hr.
  - by injection Hr as <- <-.
  - destruct (sub_step ev s ls) as [[s1 ls1]|] eqn:E; [|discriminate].
    destruct (step_inv ev s s1 ls ls1 Hst Hi E) as [Hi1 Hst1].
    apply (IH s1 ls1); [rewrite Hst1; exact Hst | exact Hi1 | exact Hr].
Qed.

(** C3 (fails as stated): right after the delivery loop has taken a message
    out of the inbox and before its write completes, [received] is one more
    than [sent + dropped + in_inbox]; when that write fails, the subscriber
    is closed and the message is counted nowhere, so at close [received]
    stays one more than [sent + dropped + in_inbox]. *)
Lemma drop_accounting_in_flight_counterexample :
  exists s0 s1 s2 s3,
    NewSubscriber "s" "default-tenant" "orders" 100 0 = Some s0 /\
    SendMessages (demo_msg 1) s0 = Some (None, s1) /\
    loop_recv s1 = Some s2 /\
    messagesRecieved s2 <> messagesSent s2 + droppedCount s2 + Z.of_nat (length (messageChan s2)) /\
    loop_write_fail s2 = Some s3 /\ closed s3 = true /\ inFlight s3 = None /\
    messagesRecieved s3 <> messagesSent s3 + droppedCount s3 + Z.of_nat (length (messageChan s3)).
Proof.
  do 4 eexists. split; [reflexivity|]. split; [reflexivity|]. split; [reflexivity|].
  split; [simpl; lia|]. split; [reflexivity|]. split; [reflexivity|].
  split; [reflexivity|]. simpl. lia.
Qed.

(** C3 (amended): for a subscriber created by [NewSubscriber] with the
    DropOldest or DropNewest strategy and its delivery loop, every state
    reached by non-panicking [SendMessages] calls, [Close] calls and
    delivery-loop steps (receives, successful and failed writes, returns)
    satisfies [received = sent + dropped + in_inbox + in_flight + lost],
    where [in_flight] is 1 while the loop holds a received message whose
    write has not completed, and [lost] is 1 once a write has failed.  So
    [received = sent + dropped + in_inbox] whenever no write is pending and
    none has failed; after a failed write the subscriber is closed, holds
    no message, and [received = sent + dropped + in_inbox + 1]. *)
Theorem drop_accounting_invariant (id tenant topic : string) (bufferSize now st : Z)
    (evs : list SubEvent) (s0 s : Subscriber) (ls : LoopStatus) :
  NewSubscriber id tenant topic bufferSize now = Some s0 ->
  (st = DROP_OLDEST \/ st = DROP_NEWEST) ->
  run_sub evs (with_strategy s0 st) LoopRunning = Some (s, ls) ->
  messagesRecieved s =
    messagesSent s + droppedCount s + Z.of_nat (length (messageChan s))
      + in_flight_count s + lost_count ls /\
  (inFlight s = None -> ls <> LoopWriteFailed ->
   messagesRecieved s = messagesSent s + droppedCount s + Z.of_nat (length (messageChan s))) /\
  (ls = LoopWriteFailed ->
   closed s = true /\ inFlight s = None /\
   messagesRecieved s = messagesSent s + droppedCount s + Z.of_nat (length (messageChan s)) + 1).
Proof.
  intros Hn Hst Hs.
  unfold NewSubscriber in Hn. destruct (bufferSize <? 0); [discriminate|].
  injection Hn as <-.
  assert (Hi : sub_inv s ls).
  { eapply run_inv; [| | exact Hs]; [simpl; exact Hst |].
    unfold sub_inv, accounted, in_flight_count; simpl. reflexivity. }
  destruct ls; unfold sub_inv, accounted in Hi; unfold lost_count.
  - split; [lia|]. split; [|discriminate].
    intros Hf _. unfold in_flight_count in Hi. rewrite Hf in Hi. lia.
  - destruct Hi as (Hc & Hf & Heq). unfold in_flight_count. rewrite Hf.
    split; [lia|]. split; [congruence|]. intros _. auto.
  - split; [lia|]. split; [|discriminate].
    intros Hf _. unfold in_flight_count in Hi. rewrite Hf in Hi. lia.
Qed.

(** Witness of C3: DropNewest, capacity 1: three sends (one dropped), a
    receive by the loop and a successful write, a second receive whose
    write fails, and [Close]. *)
Lemma drop_accounting_invariant_witness :
  exists s,
    run_sub [EvSend (demo_msg 1); EvSend (demo_msg 2); EvRecv; EvSend (demo_msg 3);
             EvWriteOk 5; EvRecv; EvWriteFail; EvClose]
      (with_strategy (mkSubscriber "s" "default-tenant" "orders" [] 1 DROP_OLDEST 0 0 0 0 false None)
         DROP_NEWEST) LoopRunning = Some (s, LoopWriteFailed) /\
    closed s = true /\
    messagesRecieved s = messagesSent s + droppedCount s + Z.of_nat (length (messageChan s)) + 1 /\
    messagesRecieved s = 3 /\ messagesSent s = 1 /\ droppedCount s = 1.
Proof.
  destruct (run_sub [EvSend (demo_msg 1); EvSend (demo_msg 2); EvRecv; EvSend (demo_msg 3);
             EvWriteOk 5; EvRecv; EvWriteFail; EvClose]
      (with_strategy (mkSubscriber "s" "default-tenant" "orders" [] 1 DROP_OLDEST 0 0 0 0 false None)
         DROP_NEWEST) LoopRunning) as [[s ls]|] eqn:E.
  - pose proof (drop_accounting_invariant "s" "default-tenant" "orders" 1 0 DROP_NEWEST
                  _ _ s ls eq_refl (or_intror eq_refl) E) as [_ [_ H]].
    vm_compute in E. injection E as <- <-.
    eexists. split; [reflexivity|].
    destruct (H eq_refl) as (Hc & _ & Heq).
    split; [exact Hc | split; [exact Heq | split; [reflexivity | split; reflexivity]]].
  - vm_compute in E. discriminate.
Defined.

(** ** C4 *)

Lemma toInt64_small (x : Z) : -2 ^ 63 <= x < 2 ^ 63 -> toInt64 x = x.
Proof.
  intros Hx. unfold toInt64. rewrite Z.mod_small by lia. lia.
Qed.

Lemma toInt32_small (x : Z) : -2 ^ 31 <= x < 2 ^ 31 -> toInt32 x = x.
Proof.
  intros Hx. unfold toInt32. rewrite Z.mod_small by lia. lia.
Qed.

(** C4 (fails as stated): with no subscribers the recalculation stores
    nothing; with 2048 MiB budget, 1 MiB in use and a previously stored
    size of 100, the size stays 100 while the claimed formula with
    [max(1, 0) = 1] gives 1000. *)
Lemma recalculate_zero_subscribers_counterexample :
  let adm := mkABM (2048 * 1024 * 1024) 0 100 in
  let alloc := 1024 * 1024 in
  bufferSize (recalculate alloc adm) = 100 /\
  clamp ((Z.max 0 (maxTotalMemory adm - alloc) / Z.max 1 (suncriberCount adm)) / AvgMessSize)
        MinBifferSize MaxBufferSize = 1000.
Proof. split; reflexivity. Qed.

(** C4 (amended): with [subscriber_count = 0] a recalculation step leaves
    the manager (and the advertised size) unchanged; with
    [subscriber_count > 0], [0 <= max_total_memory < 2^63],
    [0 <= alloc < 2^63] and a per-subscriber quotient below [2^31] (no
    wrap of the [int32] conversion), it stores
    [clamp((max(0, max_total_memory - alloc) / subscriber_count) / 1024, 100, 1000)]. *)
Theorem recalculate_spec (alloc : Z) (adm : AddaptiveBufferManager) :
  (suncriberCount adm = 0 -> recalculate alloc adm = adm) /\
  (0 < suncriberCount adm -> 0 <= maxTotalMemory adm < 2 ^ 63 -> 0 <= alloc < 2 ^ 63 ->
   (Z.max 0 (maxTotalMemory adm - alloc) / suncriberCount adm) / AvgMessSize < 2 ^ 31 ->
   bufferSize (recalculate alloc adm) =
     clamp ((Z.max 0 (maxTotalMemory adm - alloc) / suncriberCount adm) / AvgMessSize)
           MinBifferSize MaxBufferSize).
Proof.
  split.
  - intros H0. unfold recalculate. rewrite H0. reflexivity.
  - intros Hc HM Ha Hq. unfold recalculate.
    destruct (suncriberCount adm =? 0) eqn:E0; [lia|].
    rewrite (toInt64_small alloc) by lia.
    rewrite (toInt64_small (maxTotalMemory adm - alloc)) by lia.
    set (av := if maxTotalMemory adm - alloc <? 0 then 0 else maxTotalMemory adm - alloc).
    assert (Hav : av = Z.max 0 (maxTotalMemory adm - alloc)) by
      (unfold av; destruct (maxTotalMemory adm - alloc <? 0) eqn:E; lia).
    rewrite Hav.
    assert (H0 : 0 <= Z.max 0 (maxTotalMemory adm - alloc)) by lia.
    rewrite (Z.quot_div_nonneg (Z.max 0 (maxTotalMemory adm - alloc))) by lia.
    assert (0 <= Z.max 0 (maxTotalMemory adm - alloc) / suncriberCount adm) by
      (apply Z.div_pos; lia).
    rewrite Z.quot_div_nonneg by (unfold AvgMessSize; lia).
    assert (0 <= Z.max 0 (maxTotalMemory adm - alloc) / suncriberCount adm / AvgMessSize) by
      (apply Z.div_pos; unfold AvgMessSize; lia).
    rewrite toInt32_small by lia.
    simpl. unfold clamp, MinBifferSize, MaxBufferSize.
    set (q := Z.max 0 (maxTotalMemory adm - alloc) / suncriberCount adm / AvgMessSize) in *.
    destruct (q <? 100) eqn:E1; simpl; [lia|].
    destruct (q >? 1000) eqn:E2; lia.
Qed.

(** Witness of C4: 2 subscribers, 2 GiB budget, 1 MiB in use: the stored
    size is the maximum, 1000. *)
Lemma recalculate_spec_witness :
  bufferSize (recalculate (1024 * 1024) (mkABM (2 * 1024 * 1024 * 1024) 2 100)) = 1000.
Proof.
  destruct (recalculate_spec (1024 * 1024) (mkABM (2 * 1024 * 1024 * 1024) 2 100)) as [_ H].
  rewrite H; simpl; [reflexivity | lia | lia | lia | vm_compute; reflexivity].
Defined.

(** ** C5 *)

(** C5 (fails as stated): arms at 0 s and at 3 s; the first arm's disarm
    goroutine runs at 5 s and clears the flag, 2 s after the second arm. *)
Lemma throttle_rearm_counterexample :
  exists at',
    run_throttle [EvArm; EvAdvance (3 * second); EvArm; EvAdvance (5 * second);
                  EvTimer (5 * second)]
                 (0, NewAdaptiveThrottler DefaultConfig 0) = Some (5 * second, at') /\
    isThrottling at' = false /\ 5 * second < 3 * second + ThrottleDuration DefaultConfig.
Proof. eexists. split; [reflexivity|]. split; reflexivity. Qed.

Section Hysteresis.
Variables (a D : Z) (cfg : Config).
Hypothesis HD : ThrottleDuration cfg = D.

Lemma remove_first_Forall (P : Z -> Prop) (d : Z) (l : list Z) :
  Forall P l -> Forall P (remove_first d l).
Proof.
  induction 1 as [|x l Hx Hl IH]; simpl; [constructor|].
  destruct (Z.eqb x d); [exact Hl | constructor; assumption].
Qed.

Lemma fresh_arm_event (ev : ThrottleEvent) (st st' : Z * AdaptiveThrottler) :
  after_fresh_arm a D cfg st -> throttle_event ev st = Some st' -> after_fresh_arm a D cfg st'.
Proof.
  destruct st as [now at0].
  intros (Hc & Ha & Hp & Hf) Hev. unfold after_fresh_arm in *; simpl in *.
  destruct ev as [| t | d]; simpl in Hev.
  - injection Hev as <-. simpl. rewrite Hc. repeat split; auto.
    constructor; [rewrite HD; lia | exact Hp].
  - destruct (now <=? t) eqn:E; [|discriminate]. injection Hev as <-. simpl.
    repeat split; auto; [lia | intros Ht; apply Hf; lia].
  - destruct (existsb (Z.eqb d) (pendingTimers at0) && (d <=? now)) eqn:E; [|discriminate].
    injection Hev as <-. simpl. apply andb_true_iff in E as [Hin Hle].
    repeat split; auto.
    + apply remove_first_Forall. exact Hp.
    + intros Hlt. exfalso.
      apply existsb_exists in Hin as (x & Hx & Hxe). apply Z.eqb_eq in Hxe. subst x.
      rewrite List.Forall_forall in Hp. specialize (Hp d Hx).
      lia.
Qed.

Lemma fresh_arm_run (evs : list ThrottleEvent) (st st' : Z * AdaptiveThrottler) :
  after_fresh_arm a D cfg st -> run_throttle evs st = Some st' -> after_fresh_arm a D cfg st'.
Proof.
  revert st. induction evs as [|ev evs IH]; intros st Hi Hr; simpl in Hr.
  - by injection Hr as <-.
  - destruct (throttle_event ev st) as [st1|] eqn:E; [|discriminate].
    apply (IH st1); [eapply fresh_arm_event; eauto | exact Hr].
Qed.

Lemma first_timer_pending (evs : list ThrottleEvent) (now t : Z)
    (at0 at' : AdaptiveThrottler) :
  In (a + D) (pendingTimers at0) ->
  ~ In (EvTimer (a + D)) evs ->
  run_throttle evs (now, at0) = Some (t, at') -> In (a + D) (pendingTimers at').
Proof.
  revert now at0. induction evs as [|ev evs IH]; intros now at0 Hin Hno Hr; cbn [run_throttle] in Hr.
  - injection Hr as <- <-. exact Hin.
  - destruct (throttle_event ev (now, at0)) as [[now1 at1]|] eqn:E; [|discriminate].
    apply (IH now1 at1); [| intros H; apply Hno; right; exact H | exact Hr].
    destruct ev as [| t' | d]; simpl in E.
    + injection E as <- <-. simpl. right. exact Hin.
    + destruct (now <=? t'); [|discriminate]. injection E as <- <-. exact Hin.
    + destruct (existsb (Z.eqb d) (pendingTimers at0) && (d <=? now)); [|discriminate].
      injection E as <- <-. simpl.
      assert (d <> a + D) by (intros ->; apply Hno; left; reflexivity).
      clear -Hin H. induction (pendingTimers at0) as [|x l IHl]; simpl in *; [done|].
      destruct (Z.eqb x d) eqn:Ex.
      * apply Z.eqb_eq in Ex. subst x. destruct Hin as [Hin|Hin]; [lia | exact Hin].
      * destruct Hin as [<-|Hin]; [left; reflexivity | right; apply IHl; exact Hin].
Qed.
End Hysteresis.

(** C5 (amended): an arm at time [a] made when no disarm timer is pending
    keeps [is_throttling] true at every later time before
    [a + throttle_duration], whatever arms, clock steps and timer runs
    follow; later arms do not extend that window: the first arm's timer
    stays pending until it runs, and running it (at or after
    [a + throttle_duration]) clears the flag even while later arms' timers
    are pending. *)
Theorem throttle_fresh_arm_hysteresis (a : Z) (at0 : AdaptiveThrottler)
    (evs : list ThrottleEvent) (t : Z) (at' : AdaptiveThrottler) :
  pendingTimers at0 = [] ->
  run_throttle evs (a, StartThrottling a at0) = Some (t, at') ->
  (t < a + ThrottleDuration (config at0) -> isThrottling at' = true) /\
  (~ In (EvTimer (a + ThrottleDuration (config at0))) evs ->
   In (a + ThrottleDuration (config at0)) (pendingTimers at') /\
   (a + ThrottleDuration (config at0) <= t ->
    exists at'', throttle_event (EvTimer (a + ThrottleDuration (config at0))) (t, at')
                 = Some (t, at'') /\ isThrottling at'' = false)).
Proof.
  intros Hp Hr.
  set (D := ThrottleDuration (config at0)).
  assert (Hi : after_fresh_arm a D (config at0) (a, StartThrottling a at0)).
  { unfold after_fresh_arm; simpl. rewrite Hp.
    split; [reflexivity|]. split; [lia|]. split; [|reflexivity].
    constructor; [unfold D; lia | constructor]. }
  pose proof (fresh_arm_run a D (config at0) eq_refl evs _ _ Hi Hr) as (_ & _ & _ & Hf).
  split; [exact Hf|].
  intros Hno.
  assert (Hin : In (a + D) (pendingTimers at')).
  { eapply (first_timer_pending a D evs a t (StartThrottling a at0) at'); [| exact Hno | exact Hr].
    simpl. left. unfold D. reflexivity. }
  split; [exact Hin|].
  intros Hle. eexists. split.
  - simpl. replace (existsb (Z.eqb (a + D)) (pendingTimers at') && (a + D <=? t)) with true.
    + reflexivity.
    + symmetry. apply andb_true_iff. split; [| lia].
      apply existsb_exists. exists (a + D). split; [exact Hin | apply Z.eqb_refl].
  - reflexivity.
Qed.

(** Witness of C5: arm at 0 s on a fresh throttler, a second arm at 2 s; at
    4 s the flag is still set; at 5 s the first timer runs and clears it. *)
Lemma throttle_fresh_arm_hysteresis_witness :
  exists at',
    run_throttle [EvAdvance (2 * second); EvArm; EvAdvance (5 * second)]
      (0, StartThrottling 0 (NewAdaptiveThrottler DefaultConfig 0)) = Some (5 * second, at') /\
    exists at'', throttle_event (EvTimer (5 * second)) (5 * second, at') = Some (5 * second, at'') /\
                 isThrottling at'' = false.
Proof.
  destruct (run_throttle [EvAdvance (2 * second); EvArm; EvAdvance (5 * second)]
      (0, StartThrottling 0 (NewAdaptiveThrottler DefaultConfig 0))) as [[t at']|] eqn:E.
  - pose proof (throttle_fresh_arm_hysteresis 0 (NewAdaptiveThrottler DefaultConfig 0)
                  _ t at' eq_refl E) as [_ H].
    vm_compute in E. injection E as <- <-.
    eexists. split; [reflexivity|].
    apply H.
    + simpl. intros [Hx|[Hx|[Hx|[]]]]; discriminate.
    + vm_compute. discriminate.
  - vm_compute in E. discriminate.
Defined.

(** ** C6 *)

(** C6: [lastCheckTime] keeps only [now.Unix()], whole seconds, and the next
    call measures the interval from that truncated second.  A throttler
    created at 9.0 s is checked at 10.9 s (no subscribers: false, stores 10);
    after [UpdateSubscriber(2, 2)] a call at 11.0 s, 0.1 s after that check,
    samples again (20000 goroutines: CPU 0.9) and arms the throttle, where
    the cached decision of the last check was false. *)
Theorem should_throttle_unix_truncation :
  let at0 := NewAdaptiveThrottler DefaultConfig (9 * second) in
  let t1 := 10 * second + 9 * (second / 10) in
  let t2 := 11 * second in
  let r1 := ShouldThrottle t1 0 0 at0 in
  let r2 := ShouldThrottle t2 20000 0 (UpdateSubscriber 2 2 (snd r1)) in
  fst r1 = false /\ isThrottling (snd r1) = false /\
  t2 - t1 < CheckInterval DefaultConfig /\
  fst r2 = true /\ isThrottling (snd r2) = true /\ lastCheckTime (snd r2) = 11.
Proof. vm_compute. repeat split; reflexivity. Qed.

(** ** C8 *)

Lemma send_received (msg : Message) (s : Subscriber) (e : option SendError) (s1 : Subscriber) :
  SendMessages msg s = Some (e, s1) -> messagesRecieved s1 = messagesRecieved s + 1.
Proof.
  unfold SendMessages, handleBackPressure, chan_try_send, chan_try_recv, Close,
    incr_dropped; simpl.
  destruct (messageChan s) as [|m0 rest]; simpl;
  repeat (match goal with
          | |- context [if ?b then _ else _] => destruct b eqn:?
          end; simpl);
  intros H; first [discriminate H | injection H; intros; subst; simpl; reflexivity].
Qed.

Lemma catchup_received (l : list Message) (s s' : Subscriber) :
  catchup_loop l s = Some s' ->
  messagesRecieved s' <= messagesRecieved s + Z.of_nat (length l).
Proof.
  revert s. induction l as [|m l IH]; intros s H; simpl in H.
  - injection H as <-. simpl. lia.
  - destruct (SendMessages m s) as [[[e|] s1]|] eqn:E; [| |discriminate].
    + injection H as <-. apply send_received in E. simpl. lia.
    + apply IH in H. apply send_received in E. simpl. lia.
Qed.

Lemma catchup_room (l : list Message) (s : Subscriber) :
  closed s = false ->
  (Z.of_nat (length (messageChan s) + length l) <= chanCap s)%Z ->
  exists s', catchup_loop l s = Some s' /\ messageChan s' = messageChan s ++ l.
Proof.
  revert s. induction l as [|m l IH]; intros s Hc Hr; simpl.
  - exists s. rewrite app_nil_r. split; reflexivity.
  - unfold SendMessages, chan_try_send. simpl. rewrite Hc.
    replace (Z.of_nat (length (messageChan s)) <? chanCap s) with true by
      (symmetry; apply Z.ltb_lt; simpl in Hr; lia).
    destruct (IH (set_chan (set_counters s (droppedCount s) (messagesRecieved s + 1)
                              (messagesSent s)) (messageChan s ++ [m]))) as (s' & E & Hm).
    + exact Hc.
    + simpl. rewrite length_app. simpl. simpl in Hr. lia.
    + exists s'. split; [exact E|]. rewrite Hm. simpl. rewrite <- app_assoc. reflexivity.
Qed.

Lemma publish_all_models (h0 h : list Message) (t t' : Topic) :
  cache_models h0 (recentCache t) -> publish_all h t = Some t' ->
  cache_models (h0 ++ h) (recentCache t') /\ tenantID t' = tenantID t /\
  size (recentCache t') = size (recentCache t).
Proof.
  revert h0 t. induction h as [|m h IH]; intros h0 t Hm Hp; simpl in Hp.
  - injection Hp as <-. rewrite app_nil_r. split; [exact Hm | split; reflexivity].
  - destruct (Topic_Publish m t) as [t1|] eqn:E; [|discriminate].
    unfold Topic_Publish in E.
    destruct (add_models h0 (recentCache t) m Hm) as (c1 & Ha & Hc1).
    rewrite Ha in E. destruct (fanout m (subscribers t)) as [g|]; [|discriminate].
    injection E as <-.
    destruct (IH (h0 ++ [m]) (set_topic t g c1 (messagesPublished t + 1) (totalSubscribers t)) Hc1 Hp) as (Hm' & Ht & Hs).
    rewrite <- app_assoc in Hm'. split; [exact Hm'|]. split; [exact Ht|].
    rewrite Hs. simpl. unfold Add in Ha.
    destruct (slice_set (messages (recentCache t)) (index (recentCache t)) m); [|discriminate].
    destruct (size (recentCache t) =? 0); [discriminate|]. injection Ha as <-. reflexivity.
Qed.

(** C8 (fails as stated): a subscriber made by [NewSubscriber] with buffer
    size 100 joins a topic whose cache holds 2 messages and [Subscribe]
    reports no error; the client disconnects before the catch-up goroutine
    runs, so the handler's [Unsubscribe] removes and closes the subscriber.
    The catch-up, which still holds the subscriber, panics on its first
    [SendMessages] (send on the closed channel): nothing is enqueued. *)
Lemma catchup_exact_count_counterexample :
  match NewTopic "orders" "default-tenant" 100 0 ≫= publish_all [demo_msg 1; demo_msg 2],
        NewSubscriber "s" "default-tenant" "orders" 100 0 with
  | Some t, Some s =>
      count (recentCache t) = 2 /\ fst (Topic_Subscribe s t) = None /\
      match Topic_Unsubscribe "s" (snd (Topic_Subscribe s t)) with
      | (None, t1, Some s1) =>
          closed s1 = true /\
          sendRecentMessages (recentCache t1) s1 = None /\
          topic_catchup "s" t1 = None
      | _ => False
      end
  | _, _ => False
  end.
Proof. vm_compute. repeat split. Qed.

Lemma publish_all_from_new (nm tenant : string) (N now : Z) (t0 t : Topic) (h : list Message) :
  0 < N -> NewTopic nm tenant N now = Some t0 -> publish_all h t0 = Some t ->
  cache_models h (recentCache t) /\ tenantID t = tenant /\ size (recentCache t) = N.
Proof.
  intros HN Ht0 Hp.
  assert (Hm0 : cache_models [] (recentCache t0) /\ tenantID t0 = tenant /\
                size (recentCache t0) = N).
  { unfold NewTopic in Ht0. destruct (NewRecentMessageCache N) as [c|] eqn:Ec; [|discriminate].
    injection Ht0 as <-. split; [eapply new_cache_models; eauto | split; [reflexivity|]].
    simpl. unfold NewRecentMessageCache in Ec. destruct (N <? 0); [discriminate|].
    injection Ec as <-. reflexivity. }
  destruct Hm0 as (Hm0 & Hten & HN0).
  destruct (publish_all_models [] h t0 t Hm0 Hp) as (Hm & Htt & Hsz).
  split; [exact Hm | split; congruence].
Qed.

(** C8 (amended): [Subscribe] returns no error for a subscriber [sub] of the
    topic's tenant and stores it, leaving the cache as it is.  The catch-up
    runs later, on the topic [t1] of that time, whose cache holds the last
    messages of a history [h1] (every cache built by [NewRecentMessageCache]
    and [Add]): it takes k = min(50, count) of them, the k most recent in
    insertion order, and hands them to [SendMessages] one by one, stopping
    at the first error, so the subscriber's [received] grows by at most k.
    When the subscriber is open and its channel has room for k more
    messages, exactly those k messages are appended to its channel, in
    insertion order.  When it is closed (by its delivery loop, or removed
    and closed by [Unsubscribe]) and k > 0, the catch-up panics on its
    first send. *)
Theorem catchup_bounded_ordered (t t1 : Topic) (h1 : list Message) (sub s : Subscriber) :
  tenantID t = SubTenantID sub ->
  cache_models h1 (recentCache t1) ->
  let k := Z.to_nat (Z.min 50 (count (recentCache t1))) in
  fst (Topic_Subscribe sub t) = None /\
  subscribers (snd (Topic_Subscribe sub t)) !! ID sub = Some sub /\
  recentCache (snd (Topic_Subscribe sub t)) = recentCache t /\
  k = Nat.min 50 (Nat.min (length h1) (Z.to_nat (size (recentCache t1)))) /\
  GetLast (recentCache t1) 50 = Some (most_recent k h1) /\ length (most_recent k h1) = k /\
  (subscribers t1 !! ID sub = Some s ->
   (forall t2 s', topic_catchup (ID sub) t1 = Some t2 -> subscribers t2 !! ID sub = Some s' ->
      messagesRecieved s' <= messagesRecieved s + Z.of_nat k) /\
   (closed s = false -> Z.of_nat (length (messageChan s) + k) <= chanCap s ->
    exists t2 s', topic_catchup (ID sub) t1 = Some t2 /\
      subscribers t2 !! ID sub = Some s' /\
      messageChan s' = messageChan s ++ most_recent k h1) /\
   (closed s = true -> (0 < k)%nat -> topic_catchup (ID sub) t1 = None)) /\
  (subscribers t1 !! ID sub = None -> (0 < k)%nat -> topic_catchup (ID sub) t1 = None).
Proof.
  intros Hten Hm1 k.
  assert (Hsub : Topic_Subscribe sub t =
     (None, set_topic t (<[ID sub := sub]> (subscribers t)) (recentCache t)
              (messagesPublished t) (totalSubscribers t + 1))).
  { unfold Topic_Subscribe. rewrite Hten, String.eqb_refl. reflexivity. }
  rewrite Hsub. simpl.
  pose proof (getlast_models h1 (recentCache t1) 50 Hm1 ltac:(lia)) as Hg. fold k in Hg.
  destruct Hm1 as (Hsz & Hlen & Hcnt & _).
  assert (Hk : k = Nat.min 50 (Nat.min (length h1) (Z.to_nat (size (recentCache t1))))).
  { unfold k. rewrite Hcnt. lia. }
  assert (Hl : length (most_recent k h1) = k).
  { unfold most_recent. rewrite length_drop. lia. }
  assert (Hcons : (0 < k)%nat -> exists m rest, most_recent k h1 = m :: rest).
  { intros Hk0. destruct (most_recent k h1) as [|m rest]; [simpl in Hl; lia|].
    exists m, rest. reflexivity. }
  split; [reflexivity|].
  split; [apply lookup_insert_Some; left; split; reflexivity|].
  split; [reflexivity|]. split; [exact Hk|]. split; [exact Hg|]. split; [exact Hl|].
  split.
  - intros Hs. unfold topic_catchup. rewrite Hs. unfold sendRecentMessages. rewrite Hg.
    split; [|split].
    + intros t2 s' Hc Hs'.
      destruct (catchup_loop (most_recent k h1) s) as [s1|] eqn:E; [|discriminate].
      injection Hc as <-. simpl in Hs'. rewrite lookup_insert_Some in Hs'.
      destruct Hs' as [[_ <-]|[Hne _]]; [|congruence].
      apply catchup_received in E. rewrite Hl in E. exact E.
    + intros Hcl Hroom.
      destruct (catchup_room (most_recent k h1) s Hcl ltac:(rewrite Hl; exact Hroom))
        as (s' & E & Hc).
      rewrite E. eexists _, s'. split; [reflexivity|]. split; [|exact Hc].
      simpl. apply lookup_insert_Some. left. split; reflexivity.
    + intros Hcl Hk0. destruct (Hcons Hk0) as (m & rest & Hmr). rewrite Hmr. simpl.
      rewrite (SendMessages_closed_none m s Hcl). reflexivity.
  - intros Hn Hk0. unfold topic_catchup. rewrite Hn, Hg.
    destruct (Hcons Hk0) as (m & rest & Hmr). rewrite Hmr. reflexivity.
Qed.

(** Witness of C8: a topic of 100 cache slots with two published messages
    and a fresh subscriber of buffer size 100; the catch-up runs right
    after [Subscribe] and appends both messages. *)
Lemma catchup_bounded_ordered_witness :
  exists t t2 s',
    NewTopic "orders" "default-tenant" 100 0 ≫= publish_all [demo_msg 1; demo_msg 2] = Some t /\
    fst (Topic_Subscribe
           (mkSubscriber "s" "default-tenant" "orders" [] 100 DROP_OLDEST 0 0 0 0 false None)
           t) = None /\
    topic_catchup "s" (snd (Topic_Subscribe
           (mkSubscriber "s" "default-tenant" "orders" [] 100 DROP_OLDEST 0 0 0 0 false None)
           t)) = Some t2 /\
    subscribers t2 !! "s" = Some s' /\ messageChan s' = [demo_msg 1; demo_msg 2].
Proof.
  destruct (NewTopic "orders" "default-tenant" 100 0) as [t0|] eqn:E0;
    [|vm_compute in E0; discriminate].
  destruct (publish_all [demo_msg 1; demo_msg 2] t0) as [t|] eqn:E1;
    [|vm_compute in E0; injection E0 as <-; vm_compute in E1; discriminate].
  destruct (publish_all_from_new "orders" "default-tenant" 100 0 t0 t _ ltac:(lia) E0 E1)
    as (Hm & Hten & Hsz).
  set (sub := mkSubscriber "s" "default-tenant" "orders" [] 100 DROP_OLDEST 0 0 0 0 false None).
  assert (Hc : recentCache (snd (Topic_Subscribe sub t)) = recentCache t)
    by (unfold Topic_Subscribe; destruct (negb _); reflexivity).
  pose proof (catchup_bounded_ordered t (snd (Topic_Subscribe sub t)) [demo_msg 1; demo_msg 2]
              sub sub Hten ltac:(rewrite Hc; exact Hm)) as H.
  cbv zeta in H. destruct H as (Hnone & Hlk & _ & Hk & _ & _ & Hopen & _).
  rewrite Hc, Hsz in Hk. simpl in Hk.
  destruct (Hopen Hlk) as (_ & Hroom & _).
  destruct (Hroom eq_refl ltac:(rewrite Hc in *; simpl; rewrite Hk; simpl; lia))
    as (t2 & s' & Ec & Hs' & Hch).
  exists t, t2, s'. split; [exact E1|].
  split; [exact Hnone|]. split; [exact Ec|]. split; [exact Hs'|].
  rewrite Hch, Hc, Hk. reflexivity.
Defined.

(** ** C9 *)

(** C9 (fails as stated): 1 drop in 10 received messages is a ratio of
    exactly 0.1, and [IsHealthy] reports the subscriber healthy. *)
Lemma IsHealthy_boundary_counterexample :
  let s := mkSubscriber "s" "default-tenant" "orders" [] 100 DROP_OLDEST 1 10 9 0 false None in
  IsHealthy 0 s = true /\
  ~ (inject_Z (droppedCount s) / inject_Z (messagesRecieved s) < 1 # 10)%Q.
Proof.
  simpl. split; [reflexivity|]. unfold Qlt, Qdiv, Qmult, Qinv. simpl. lia.
Qed.

(** C9 (amended): [IsHealthy] is true exactly when [lastActive] is at
    most 60 s old and either nothing was received or
    dropped/received <= 0.1, that is 10 * dropped <= received. *)
Theorem IsHealthy_spec (now : Z) (s : Subscriber) :
  IsHealthy now s = true <->
  now - lastActive s <= 60 * second /\
  (messagesRecieved s <= 0 \/
   (0 < messagesRecieved s /\
    (inject_Z (droppedCount s) / inject_Z (messagesRecieved s) <= 1 # 10)%Q /\
    10 * droppedCount s <= messagesRecieved s)).
Proof.
  unfold IsHealthy.
  destruct (now - lastActive s >? 60 * second) eqn:Et.
  { split; [discriminate|]. intros [H _]. apply Z.gtb_lt in Et. lia. }
  rewrite Z.gtb_ltb in Et. apply Z.ltb_ge in Et.
  destruct (messagesRecieved s >? 0) eqn:Er.
  - apply Z.gtb_lt in Er.
    destruct (messagesRecieved s) as [|r|r] eqn:Hr; [lia| |lia].
    assert (Hq : (inject_Z (droppedCount s) / inject_Z (Z.pos r) <= 1 # 10)%Q <->
                 10 * droppedCount s <= Z.pos r).
    { unfold Qle, Qdiv, Qmult, Qinv. simpl. lia. }
    destruct (Qle_bool (inject_Z (droppedCount s) / inject_Z (Z.pos r)) (1 # 10)) eqn:Eq;
      simpl.
    + apply Qle_bool_iff in Eq. split; [|reflexivity].
      intros _. split; [exact Et|]. right. split; [lia|]. split; [exact Eq | apply Hq, Eq].
    + split; [discriminate|]. intros [_ [H|(_ & H & _)]]; [lia|].
      apply Qle_bool_iff in H. congruence.
  - rewrite Z.gtb_ltb in Er. apply Z.ltb_ge in Er. split; [intros _; split; [exact Et | left; exact Er] | reflexivity].
Qed.

(* ================================================================== *)
(** * Further properties of the code *)

(** ** The recent-message ring: [Clear] and the panics of [Add] *)

Lemma add_all_size (h : list Message) (c c' : RecentMessageCache) :
  add_all h c = Some c' -> size c' = size c.
Proof.
  revert c. induction h as [|m h IH]; intros c E; simpl in E.
  - by injection E as <-.
  - destruct (Add m c) as [c1|] eqn:Ea; [|discriminate].
    rewrite (IH c1 E). unfold Add in Ea.
    destruct (slice_set (messages c) (index c) m); [|discriminate].
    destruct (size c =? 0); [discriminate|]. by injection Ea as <-.
Qed.

(** After [Clear()] a reachable cache of positive size answers [GetLast]
    with no message, and the [Add]s that follow behave as on a fresh cache
    of the same size: [GetLast(k)] returns the min(k, adds, size) most
    recent messages added since the [Clear], oldest first; the messages
    added before the [Clear] are never returned again. *)
Theorem Clear_behaves_fresh (c : RecentMessageCache) (h : list Message) :
  cache_reach c -> 0 < size c ->
  (forall n, 0 <= n -> GetLast (Clear c) n = Some []) /\
  exists c', add_all h (Clear c) = Some c' /\ cache_reach c' /\
    forall k, 0 <= k ->
      GetLast c' k =
        Some (most_recent (Z.to_nat (Z.min k (Z.min (Z.of_nat (length h)) (size c)))) h).
Proof.
  intros Hr Hs.
  pose proof (reach_wf c Hr) as (Hl & _ & _ & _).
  split.
  { intros n Hn. unfold GetLast; simpl.
    destruct (n >? 0) eqn:E; [reflexivity|].
    rewrite Z.gtb_ltb in E. apply Z.ltb_ge in E.
    replace n with 0 by lia. reflexivity. }
  assert (Hm : cache_models [] (Clear c)).
  { unfold cache_models; simpl. repeat split; lia. }
  destruct (add_all_models [] h (Clear c) Hm) as (c' & E & Hc').
  exists c'. split; [exact E|]. split; [eapply add_all_reach; [apply reach_clear, Hr | exact E]|].
  intros k Hk. rewrite (getlast_models h c' k Hc' Hk).
  destruct Hc' as (_ & _ & Hcnt & _).
  rewrite Hcnt, (add_all_size h (Clear c) c' E). reflexivity.
Qed.

Lemma demo_cache_reach : cache_reach demo_cache.
Proof.
  apply (add_all_reach demo_hist demo_cache0); [| reflexivity].
  apply (reach_new 3). reflexivity.
Qed.

(** Witness: the sample ring (four messages in three slots), cleared, then
    one message added: [GetLast(50)] returns only that message. *)
Lemma Clear_behaves_fresh_witness :
  exists c', add_all [demo_msg 7] (Clear demo_cache) = Some c' /\
             GetLast c' 50 = Some [demo_msg 7].
Proof.
  destruct (Clear_behaves_fresh demo_cache [demo_msg 7] demo_cache_reach
              ltac:(vm_compute; reflexivity)) as (_ & c' & E & _ & Hg).
  exists c'. split; [exact E|]. rewrite (Hg 50 ltac:(lia)). vm_compute. reflexivity.
Defined.

(** On a reachable cache [Add] panics exactly when the cache has size 0
    ([NewRecentMessageCache(0)]: writing [c.messages[0]] of the empty
    slice); on a cache of positive size it never panics. *)
Theorem Add_panics_iff_zero_size (m : Message) (c : RecentMessageCache) :
  cache_reach c -> (Add m c = None <-> size c = 0).
Proof.
  intros Hr. pose proof (reach_wf c Hr) as (Hl & Hc & Hi & Hi').
  unfold Add, slice_set. rewrite Hl.
  destruct (Z.eq_dec (size c) 0) as [H0|H0].
  - rewrite H0. split; intros _; [reflexivity|].
    destruct (_ && _); reflexivity.
  - replace ((0 <=? index c) && (index c <? Z.of_nat (Z.to_nat (size c)))) with true.
    + replace (size c =? 0) with false by (symmetry; apply Z.eqb_neq; exact H0).
      split; [discriminate | intros; contradiction].
    + symmetry. apply andb_true_iff. split; [apply Z.leb_le; lia | apply Z.ltb_lt; lia].
Qed.

(** Witness: a fresh cache of size 0 and one of size 3. *)
Lemma Add_panics_iff_zero_size_witness :
  Add (demo_msg 1) (mkCache [] 0 0 0) = None /\ Add (demo_msg 1) demo_cache0 <> None.
Proof.
  split.
  - apply (Add_panics_iff_zero_size (demo_msg 1) (mkCache [] 0 0 0)).
    + apply (reach_new 0). reflexivity.
    + reflexivity.
  - intros H. apply (Add_panics_iff_zero_size (demo_msg 1) demo_cache0) in H.
    + discriminate H.
    + apply (reach_new 3). reflexivity.
Defined.

(** ** The throttler's samplers *)

Lemma Qlt_bool_iff (x y : Q) : Qlt_bool x y = true <-> (x < y)%Q.
Proof.
  unfold Qlt_bool. destruct (Qle_bool y x) eqn:E; simpl.
  - apply Qle_bool_iff in E. split; [discriminate|]. intros H. exfalso.
    apply (Qlt_not_le x y H E).
  - split; [intros _|reflexivity]. apply Qnot_le_lt. intros H.
    apply Qle_bool_iff in H. congruence.
Qed.

(** [getCPUUsage()] stays in [0, 1] and is not monotone in the goroutine
    count: it is 1.0 at 1000 goroutines and 0.5 from 1001 to 5000.  It
    exceeds the default CPU threshold 0.8 exactly for 801..1000 and for more
    than 10000 goroutines. *)
Theorem getCPUUsage_spec (n : Z) :
  0 <= n ->
  (0 <= getCPUUsage n <= 1)%Q /\
  (Qlt_bool (CPUThreshold DefaultConfig) (getCPUUsage n) = true <->
   (800 < n <= 1000 \/ 10000 < n)).
Proof.
  intros Hn. rewrite Qlt_bool_iff. unfold getCPUUsage, DefaultConfig; simpl.
  destruct (n >? 10000) eqn:E1.
  { apply Z.gtb_lt in E1. split; [unfold Qle; simpl; lia|].
    split; [lia | intros _; unfold Qlt; simpl; lia]. }
  rewrite Z.gtb_ltb in E1; apply Z.ltb_ge in E1.
  destruct (n >? 5000) eqn:E2.
  { split; [unfold Qle; simpl; lia|]. split; [unfold Qlt; simpl; lia|].
    apply Z.gtb_lt in E2. lia. }
  rewrite Z.gtb_ltb in E2; apply Z.ltb_ge in E2.
  destruct (n >? 1000) eqn:E3.
  { split; [unfold Qle; simpl; lia|]. split; [unfold Qlt; simpl; lia|].
    apply Z.gtb_lt in E3. lia. }
  rewrite Z.gtb_ltb in E3; apply Z.ltb_ge in E3.
  unfold Qle, Qlt, Qdiv, Qmult, Qinv; simpl. lia.
Qed.

Lemma getCPUUsage_spec_witness :
  Qlt_bool (CPUThreshold DefaultConfig) (getCPUUsage 1000) = true /\
  Qlt_bool (CPUThreshold DefaultConfig) (getCPUUsage 1001) = false.
Proof.
  split.
  - apply (proj2 (proj2 (getCPUUsage_spec 1000 ltac:(lia)))). lia.
  - destruct (Qlt_bool (CPUThreshold DefaultConfig) (getCPUUsage 1001)) eqn:E; [|reflexivity].
    apply (proj1 (proj2 (getCPUUsage_spec 1001 ltac:(lia)))) in E. lia.
Defined.

(** [getMemoryUsage()] stays in [0, 1] and exceeds the default memory
    threshold 0.8 exactly when the heap is above 0.8 * 2 GiB. *)
Theorem getMemoryUsage_spec (alloc : Z) :
  0 <= alloc ->
  (0 <= getMemoryUsage alloc <= 1)%Q /\
  (Qlt_bool (MemoryThreshold DefaultConfig) (getMemoryUsage alloc) = true <->
   4 * (2 * 1024 * 1024 * 1024) < 5 * alloc).
Proof.
  intros Ha. rewrite Qlt_bool_iff. unfold getMemoryUsage, DefaultConfig; simpl.
  destruct (Qle_bool (inject_Z alloc / inject_Z (2 * 1024 * 1024 * 1024)) 1) eqn:E; simpl.
  - apply Qle_bool_iff in E. revert E. unfold Qle, Qlt, Qdiv, Qmult, Qinv; simpl. lia.
  - assert (Hb : ~ (inject_Z alloc / inject_Z (2 * 1024 * 1024 * 1024) <= 1)%Q)
      by (intros H; apply Qle_bool_iff in H; congruence).
    revert Hb. unfold Qle, Qlt, Qdiv, Qmult, Qinv; simpl. lia.
Qed.

Lemma getMemoryUsage_spec_witness :
  Qlt_bool (MemoryThreshold DefaultConfig) (getMemoryUsage (2 * 1024 * 1024 * 1024)) = true.
Proof. apply (proj2 (proj2 (getMemoryUsage_spec (2 * 1024 * 1024 * 1024) ltac:(lia)))). lia.
Defined.

(** ** The advertised buffer size *)

(** Whatever the memory budget, the heap readings (even ones that wrap in
    the int64 and int32 conversions) and the subscriber additions and
    removals (even ones that wrap the int32 count), [GetBufferSize()]
    always returns a size in [100, 1000]: every subscriber channel made by
    the subscribe handler has a capacity in that range. *)
Theorem run_abm_buffer_range (M : Z) (evs : list ABMEvent) :
  MinBifferSize <= GetBufferSize (run_abm evs (NewAdaptiveBufferManager M)) <= MaxBufferSize.
Proof.
  assert (Hgen : forall adm, MinBifferSize <= bufferSize adm <= MaxBufferSize ->
            MinBifferSize <= bufferSize (run_abm evs adm) <= MaxBufferSize).
  { induction evs as [|ev evs IH]; intros adm Hb; simpl; [exact Hb|].
    apply IH. destruct ev as [alloc| |]; simpl; [|exact Hb|exact Hb].
    unfold recalculate. destruct (suncriberCount adm =? 0); [exact Hb|]. simpl.
    set (b := toInt32 _).
    destruct (b <? MinBifferSize) eqn:E1;
      [| apply Z.ltb_ge in E1];
      unfold MinBifferSize, MaxBufferSize in *;
      [destruct (100 >? 1000) eqn:E2 | destruct (b >? 1000) eqn:E2];
      try (apply Z.gtb_lt in E2); try (rewrite Z.gtb_ltb in E2; apply Z.ltb_ge in E2); lia. }
  apply Hgen. unfold NewAdaptiveBufferManager, MinBifferSize, MaxBufferSize; simpl. lia.
Qed.

(** ** Topic membership *)

Lemma Close_closed (s : Subscriber) : closed (Close s) = true.
Proof. unfold Close. destruct (closed s) eqn:E; [exact E | reflexivity]. Qed.

Lemma map_size_delete_lookup {A} (m : gmap string A) (i : string) (x : A) :
  m !! i = Some x -> Z.of_nat (stdpp.base.size (delete i m)) = Z.of_nat (stdpp.base.size m) - 1.
Proof.
  intros H.
  pose proof (map_size_insert_None i x (delete i m) (lookup_delete_eq m i)) as Hs.
  rewrite insert_delete_id in Hs by exact H. rewrite Hs. lia.
Qed.

Lemma map_size_insert_lookup {A} (m : gmap string A) (i : string) (x : A) :
  Z.of_nat (stdpp.base.size (<[i := x]> m)) =
  Z.of_nat (stdpp.base.size m) + match m !! i with Some _ => 0 | None => 1 end.
Proof. rewrite map_size_insert. destruct (m !! i); simpl; lia. Qed.

(** [Topic.Unsubscribe(id)]: an unknown id is the "not found" error and
    changes nothing; a known one is removed from the topic (one active
    subscriber less) and its subscriber object is closed, while the cache
    and the cumulative [totalSubscribers] counter are kept. *)
Theorem Topic_Unsubscribe_spec (subscriberID : string) (t : Topic) :
  (subscribers t !! subscriberID = None ->
   Topic_Unsubscribe subscriberID t = (Some ErrNotFound, t, None)) /\
  (forall sub, subscribers t !! subscriberID = Some sub ->
   exists t', Topic_Unsubscribe subscriberID t = (None, t', Some (Close sub)) /\
     subscribers t' = delete subscriberID (subscribers t) /\
     subscribers t' !! subscriberID = None /\
     GetSubscriberCount t' = GetSubscriberCount t - 1 /\
     closed (Close sub) = true /\
     recentCache t' = recentCache t /\ totalSubscribers t' = totalSubscribers t).
Proof.
  unfold Topic_Unsubscribe. split.
  - intros H. rewrite H. reflexivity.
  - intros sub H. rewrite H. eexists. split; [reflexivity|]. simpl.
    split; [reflexivity|]. split; [apply lookup_delete_eq|].
    split; [unfold GetSubscriberCount; simpl; apply (map_size_delete_lookup _ _ sub H)|].
    split; [apply Close_closed|]. split; reflexivity.
Qed.

(** Subscribing a subscriber whose id the topic does not hold, then
    unsubscribing that id, restores the topic's subscriber map and active
    count; only the cumulative [totalSubscribers] counter keeps the visit. *)
Theorem Topic_subscribe_unsubscribe_roundtrip (sub : Subscriber) (t : Topic) :
  tenantID t = SubTenantID sub -> subscribers t !! ID sub = None ->
  fst (Topic_Subscribe sub t) = None /\
  GetSubscriberCount (snd (Topic_Subscribe sub t)) = GetSubscriberCount t + 1 /\
  exists t2, Topic_Unsubscribe (ID sub) (snd (Topic_Subscribe sub t)) = (None, t2, Some (Close sub)) /\
    subscribers t2 = subscribers t /\ GetSubscriberCount t2 = GetSubscriberCount t /\
    totalSubscribers t2 = totalSubscribers t + 1.
Proof.
  intros Ht Hn. unfold Topic_Subscribe. rewrite Ht, String.eqb_refl. simpl.
  split; [reflexivity|].
  split; [unfold GetSubscriberCount; simpl; rewrite map_size_insert_lookup, Hn; lia|].
  unfold Topic_Unsubscribe. simpl. rewrite lookup_insert_eq.
  eexists. split; [reflexivity|]. simpl.
  rewrite delete_insert_id by exact Hn. split; [reflexivity|]. split; reflexivity.
Qed.

Lemma Topic_subscribe_unsubscribe_roundtrip_witness :
  exists t t2,
    NewTopic "orders" "default-tenant" 100 0 = Some t /\
    Topic_Unsubscribe "s"
      (snd (Topic_Subscribe
              (mkSubscriber "s" "default-tenant" "orders" [] 100 DROP_OLDEST 0 0 0 0 false None) t))
    = (None, t2, Some (Close (mkSubscriber "s" "default-tenant" "orders" [] 100 DROP_OLDEST 0 0 0 0 false None))).
Proof.
  destruct (NewTopic "orders" "default-tenant" 100 0) as [t|] eqn:E0.
  - destruct (Topic_subscribe_unsubscribe_roundtrip
                (mkSubscriber "s" "default-tenant" "orders" [] 100 DROP_OLDEST 0 0 0 0 false None) t)
      as (_ & _ & t2 & Hu & _).
    + vm_compute in E0. injection E0 as <-. reflexivity.
    + vm_compute in E0. injection E0 as <-. reflexivity.
    + exists t, t2. split; [reflexivity | exact Hu].
  - vm_compute in E0. discriminate.
Defined.

(** [Topic.Subscribe] with a subscriber of another tenant changes nothing;
    with a subscriber of the topic's tenant it stores it under its id,
    replacing (without closing) a subscriber already there under that id,
    leaves the other entries alone, grows the active count only for a new
    id, and always counts the call in [totalSubscribers]. *)
Theorem Topic_Subscribe_spec (sub : Subscriber) (t : Topic) :
  (tenantID t <> SubTenantID sub -> Topic_Subscribe sub t = (Some ErrTenantMismatch, t)) /\
  (tenantID t = SubTenantID sub ->
   let t1 := snd (Topic_Subscribe sub t) in
   fst (Topic_Subscribe sub t) = None /\
   subscribers t1 !! ID sub = Some sub /\
   (forall j, j <> ID sub -> subscribers t1 !! j = subscribers t !! j) /\
   totalSubscribers t1 = totalSubscribers t + 1 /\
   GetSubscriberCount t1 =
     GetSubscriberCount t + match subscribers t !! ID sub with Some _ => 0 | None => 1 end).
Proof.
  unfold Topic_Subscribe. split.
  - intros Hne. destruct (String.eqb (tenantID t) (SubTenantID sub)) eqn:E.
    + apply String.eqb_eq in E. contradiction.
    + reflexivity.
  - intros He. rewrite He, String.eqb_refl. simpl.
    split; [reflexivity|]. split; [apply lookup_insert_eq|].
    split; [intros j Hj; apply lookup_insert_ne; congruence|].
    split; [reflexivity|]. unfold GetSubscriberCount; simpl. apply map_size_insert_lookup.
Qed.

(** ** The topic registry *)

(** [getOrCreateTopic] never fails.  It returns the registered topic when
    the key exists, and otherwise registers a fresh topic (its name and
    tenant, no subscribers, an empty cache of size 100, nothing published),
    growing the topic count by one.  Either way [GetTopic] then finds that
    topic, a second call returns it without change, other keys and the
    buffer manager are untouched. *)
Theorem getOrCreateTopic_spec (tenant topicName : string) (now now' : Z) (tm : TopicManager) :
  exists t tm', getOrCreateTopic tenant topicName now tm = Some (t, tm') /\
    GetTopic tenant topicName tm' = Some t /\
    getOrCreateTopic tenant topicName now' tm' = Some (t, tm') /\
    bufferManager tm' = bufferManager tm /\
    (forall k, k <> makeTopicKey tenant topicName -> topics tm' !! k = topics tm !! k) /\
    ((GetTopic tenant topicName tm = Some t /\ tm' = tm) \/
     (GetTopic tenant topicName tm = None /\ GetTopicCount tm' = GetTopicCount tm + 1 /\
      name t = topicName /\ tenantID t = tenant /\ subscribers t = ∅ /\
      GetCount (recentCache t) = 0 /\ size (recentCache t) = 100 /\
      messagesPublished t = 0)).
Proof.
  unfold getOrCreateTopic, GetTopic.
  destruct (topics tm !! makeTopicKey tenant topicName) as [t|] eqn:E.
  - exists t, tm. rewrite E. split; [reflexivity|]. split; [reflexivity|].
    split; [reflexivity|]. split; [reflexivity|]. split; [reflexivity|]. left. split; reflexivity.
  - eexists _, _. split; [reflexivity|]. simpl.
    split; [apply lookup_insert_eq|]. rewrite lookup_insert_eq.
    split; [reflexivity|]. split; [reflexivity|].
    split; [intros k Hk; apply lookup_insert_ne; congruence|].
    right. split; [reflexivity|].
    split; [unfold GetTopicCount; simpl; rewrite map_size_insert_lookup, E; lia|].
    repeat split.
Qed.

(** ** Unsubscribing through the topic manager *)

(** [TopicManager.Unsubscribe]: a missing topic or a missing subscriber is
    the "not found" error and changes nothing (in particular the buffer
    manager's subscriber count is not decremented); otherwise the
    subscriber leaves the topic and the count is decremented. *)
Theorem TM_Unsubscribe_spec (tenant topicName subscriberID : string) (tm : TopicManager) :
  (GetTopic tenant topicName tm = None ->
   TM_Unsubscribe tenant topicName subscriberID tm = (Some ErrNotFound, tm)) /\
  (forall t, GetTopic tenant topicName tm = Some t -> subscribers t !! subscriberID = None ->
   TM_Unsubscribe tenant topicName subscriberID tm = (Some ErrNotFound, tm)) /\
  (forall t sub, GetTopic tenant topicName tm = Some t -> subscribers t !! subscriberID = Some sub ->
   exists t', TM_Unsubscribe tenant topicName subscriberID tm =
     (None, {| bufferManager := OnSubscriberRemoval (bufferManager tm);
               topics := <[makeTopicKey tenant topicName := t']> (topics tm) |}) /\
     subscribers t' = delete subscriberID (subscribers t) /\
     suncriberCount (OnSubscriberRemoval (bufferManager tm)) =
       toInt32 (suncriberCount (bufferManager tm) - 1)).
Proof.
  unfold TM_Unsubscribe, GetTopic. split; [|split].
  - intros H. rewrite H. reflexivity.
  - intros t H Hn. rewrite H. unfold Topic_Unsubscribe. rewrite Hn. reflexivity.
  - intros t sub H Hs. rewrite H. unfold Topic_Unsubscribe. rewrite Hs.
    eexists. split; [reflexivity|]. split; reflexivity.
Qed.

(** [TopicManager.Subscribe] stores the subscriber under its own [ID],
    whatever [subscriberID] argument it is given.  Subscribing a subscriber
    of the right tenant whose id the topic does not hold, then
    unsubscribing that id through the manager, gives back the buffer
    manager unchanged (while its subscriber count stays inside int32) and
    the topic's original subscribers; the topic itself stays registered. *)
Theorem TM_subscribe_unsubscribe_roundtrip (tenant topicName subscriberID : string)
    (sub : Subscriber) (now : Z) (tm tm1 : TopicManager) :
  SubTenantID sub = tenant ->
  (forall t, GetTopic tenant topicName tm = Some t -> subscribers t !! ID sub = None) ->
  -2 ^ 31 <= suncriberCount (bufferManager tm) < 2 ^ 31 - 1 ->
  TM_Subscribe tenant topicName subscriberID sub now tm = Some (None, tm1) ->
  exists tm2 t2,
    TM_Unsubscribe tenant topicName (ID sub) tm1 = (None, tm2) /\
    bufferManager tm2 = bufferManager tm /\
    GetTopic tenant topicName tm2 = Some t2 /\
    subscribers t2 = match GetTopic tenant topicName tm with
                     | Some t => subscribers t
                     | None => ∅
                     end.
Proof.
  intros Hten Hfresh Hrange Hsub.
  unfold TM_Subscribe in Hsub. rewrite Hten, String.eqb_refl in Hsub. simpl in Hsub.
  destruct (getOrCreateTopic_spec tenant topicName now now tm)
    as (t & tm' & Eg & _ & _ & Hbm & _ & Hcase).
  rewrite Eg in Hsub. unfold Topic_Subscribe in Hsub.
  destruct (String.eqb (tenantID t) (SubTenantID sub)) eqn:Etn; simpl in Hsub;
    [| discriminate].
  injection Hsub as <-.
  assert (Hn : subscribers t !! ID sub = None).
  { destruct Hcase as [[Hg _] | (_ & _ & _ & _ & Hs & _)];
      [apply Hfresh, Hg | rewrite Hs; apply lookup_empty]. }
  unfold TM_Unsubscribe, put_topic, Topic_Unsubscribe; simpl.
  rewrite !lookup_insert_eq. simpl. rewrite lookup_insert_eq.
  eexists _, _. split; [reflexivity|]. split.
  - simpl. rewrite Hbm. destruct (bufferManager tm) as [mx c b]; simpl in *.
    unfold OnSubscriberRemoval, AddNewSubscriber; simpl.
    rewrite (toInt32_small (c + 1)) by lia. replace (c + 1 - 1) with c by lia.
    rewrite toInt32_small by lia. reflexivity.
  - split; [unfold GetTopic; simpl; rewrite lookup_insert_eq; reflexivity|]. simpl.
    rewrite delete_insert_id by exact Hn.
    destruct Hcase as [[Hg _] | (Hg & _ & _ & _ & Hs & _)]; rewrite Hg; [reflexivity | exact Hs].
Qed.

(** Witness: subscriber "s" of the default tenant on a new topic, given
    another [subscriberID] argument. *)
Lemma TM_subscribe_unsubscribe_roundtrip_witness :
  exists tm1 tm2 t2,
    TM_Subscribe "default-tenant" "orders" "other-id"
      (mkSubscriber "s" "default-tenant" "orders" [] 100 DROP_OLDEST 0 0 0 0 false None) 0 demo_tm0
      = Some (None, tm1) /\
    TM_Unsubscribe "default-tenant" "orders" "s" tm1 = (None, tm2) /\
    bufferManager tm2 = bufferManager demo_tm0 /\
    GetTopic "default-tenant" "orders" tm2 = Some t2 /\ subscribers t2 = ∅.
Proof.
  destruct (TM_Subscribe "default-tenant" "orders" "other-id"
      (mkSubscriber "s" "default-tenant" "orders" [] 100 DROP_OLDEST 0 0 0 0 false None) 0 demo_tm0)
    as [[[e|] tm1]|] eqn:E.
  - vm_compute in E. discriminate.
  - destruct (TM_subscribe_unsubscribe_roundtrip "default-tenant" "orders" "other-id"
                (mkSubscriber "s" "default-tenant" "orders" [] 100 DROP_OLDEST 0 0 0 0 false None)
                0 demo_tm0 tm1 eq_refl
                ltac:(intros t Ht; vm_compute in Ht; discriminate)
                ltac:(unfold demo_tm0, NewAdaptiveBufferManager; simpl; lia) E)
      as (tm2 & t2 & Hu & Hb & Hg & Hs).
    exists tm1, tm2, t2. split; [reflexivity|]. split; [exact Hu|]. split; [exact Hb|].
    split; [exact Hg | exact Hs].
  - vm_compute in E. discriminate.
Defined.

(** ** Publishing to a topic *)

Lemma reach_models (c : RecentMessageCache) :
  cache_reach c -> 0 < size c -> exists h, cache_models h c.
Proof.
  induction 1 as [N c Hn | m c c' Hr IH Ha | c Hr IH]; intros Hs.
  - exists []. apply (new_cache_models N); [|exact Hn].
    unfold NewRecentMessageCache in Hn. destruct (N <? 0); [discriminate|].
    injection Hn as <-. simpl in Hs. exact Hs.
  - assert (Hsz : size c' = size c).
    { unfold Add in Ha. destruct (slice_set _ _ _); [|discriminate].
      destruct (size c =? 0); [discriminate|]. by injection Ha as <-. }
    destruct (IH ltac:(lia)) as [h Hh].
    destruct (add_models h c m Hh) as (c'' & E & Hm). rewrite Ha in E. injection E as <-.
    eauto.
  - exists []. pose proof (reach_wf c Hr) as (Hl & _).
    unfold cache_models; simpl in *. repeat split; lia.
Qed.

Lemma add_getlast_one (m : Message) (c c' : RecentMessageCache) :
  cache_reach c -> 0 < size c -> Add m c = Some c' ->
  cache_reach c' /\ size c' = size c /\ GetLast c' 1 = Some [m].
Proof.
  intros Hr Hs Ha.
  destruct (reach_models c Hr Hs) as [h Hh].
  destruct (add_models h c m Hh) as (c'' & E & Hm). rewrite Ha in E. injection E as <-.
  split; [eapply reach_add; eauto|].
  split.
  { unfold Add in Ha. destruct (slice_set _ _ _); [|discriminate].
    destruct (size c =? 0); [discriminate|]. by injection Ha as <-. }
  rewrite (getlast_models (h ++ [m]) c' 1 Hm ltac:(lia)).
  destruct Hm as (Hs' & _ & Hcnt & _).
  replace (Z.to_nat (Z.min 1 (count c'))) with 1%nat.
  - unfold most_recent. rewrite length_app. simpl. rewrite Nat.add_sub.
    rewrite drop_app_length. reflexivity.
  - rewrite Hcnt, length_app. simpl. lia.
Qed.

Lemma SendMessages_open (msg : Message) (s : Subscriber) :
  closed s = false ->
  exists e s', SendMessages msg s = Some (e, s') /\ ID s' = ID s /\
    messagesRecieved s' = messagesRecieved s + 1.
Proof.
  intros Hc. unfold SendMessages. simpl. rewrite Hc.
  unfold handleBackPressure, chan_try_send, chan_try_recv, incr_dropped, Close; simpl.
  repeat case_match; simplify_eq/=; do 2 eexists; (split; [reflexivity|]); simpl; split; reflexivity.
Qed.

Lemma fanout_fold_false (b : bool) (m : gmap string (option (option SendError * Subscriber))) :
  (exists k, m !! k = Some None) ->
  map_fold (fun _ r ok => match r with Some _ => ok | None => false end) b m = false.
Proof.
  revert m.
  apply (map_fold_weak_ind (fun r m => (exists k, m !! k = Some None) -> r = false)).
  - intros (k & Hk). rewrite lookup_empty in Hk. discriminate.
  - intros i x m r Hi IH (k & Hk). destruct (decide (k = i)) as [->|Hne].
    + rewrite lookup_insert_eq in Hk. injection Hk as ->. reflexivity.
    + rewrite lookup_insert_ne in Hk by congruence.
      rewrite (IH (ex_intro _ k Hk)). destruct x; reflexivity.
Qed.

Lemma fanout_fold_true (m : gmap string (option (option SendError * Subscriber))) :
  (forall k r, m !! k = Some r -> is_Some r) ->
  map_fold (fun _ r ok => match r with Some _ => ok | None => false end) true m = true.
Proof.
  revert m.
  apply (map_fold_weak_ind (fun r m => (forall k r', m !! k = Some r' -> is_Some r') -> r = true)).
  - intros _. reflexivity.
  - intros i x m r Hi IH Hall.
    destruct (Hall i x (lookup_insert_eq m i x)) as [y ->].
    apply IH. intros k r' Hk. apply (Hall k). rewrite lookup_insert_ne; [exact Hk|].
    intros ->. congruence.
Qed.

(** A closed subscriber in the snapshot makes the fan-out panic. *)
Lemma fanout_closed_none (msg : Message) (subs : gmap string Subscriber) (k : string) (s : Subscriber) :
  subs !! k = Some s -> closed s = true -> fanout msg subs = None.
Proof.
  intros Hk Hc. unfold fanout.
  rewrite fanout_fold_false; [reflexivity|].
  exists k. rewrite lookup_fmap, Hk. simpl. unfold SendMessages. simpl. rewrite Hc. reflexivity.
Qed.

Lemma fanout_open (msg : Message) (subs : gmap string Subscriber) :
  (forall k s, subs !! k = Some s -> closed s = false) ->
  fanout msg subs =
    Some ((fun s => match SendMessages msg s with Some (_, s') => s' | None => s end) <$> subs).
Proof.
  intros Hall. unfold fanout.
  rewrite fanout_fold_true.
  - f_equal. apply map_eq. intros k. rewrite lookup_omap, !lookup_fmap.
    destruct (subs !! k) as [s|] eqn:E; simpl; [|reflexivity].
    destruct (SendMessages_open msg s (Hall k s E)) as (e & s' & Hs & _). rewrite Hs. reflexivity.
  - intros k r. rewrite lookup_fmap. destruct (subs !! k) as [s|] eqn:E; simpl; [|discriminate].
    intros [= <-]. destruct (SendMessages_open msg s (Hall k s E)) as (e & s' & Hs & _).
    rewrite Hs. eexists; reflexivity.
Qed.

Lemma Topic_Publish_open (msg : Message) (t : Topic) :
  cache_reach (recentCache t) -> 0 < size (recentCache t) ->
  (forall k s, subscribers t !! k = Some s -> closed s = false) ->
  exists t', Topic_Publish msg t = Some t' /\
    cache_reach (recentCache t') /\ size (recentCache t') = size (recentCache t) /\
    GetLast (recentCache t') 1 = Some [msg] /\
    messagesPublished t' = messagesPublished t + 1 /\
    name t' = name t /\ tenantID t' = tenantID t /\
    GetSubscriberCount t' = GetSubscriberCount t /\
    (forall k, subscribers t !! k = None -> subscribers t' !! k = None) /\
    (forall k s, subscribers t !! k = Some s -> exists s',
       subscribers t' !! k = Some s' /\ ID s' = ID s /\
       messagesRecieved s' = messagesRecieved s + 1).
Proof.
  intros Hr Hs Hall. unfold Topic_Publish.
  destruct (reach_models _ Hr Hs) as [h Hh].
  destruct (add_models h _ msg Hh) as (c & Ea & _). rewrite Ea.
  rewrite (fanout_open msg _ Hall).
  destruct (add_getlast_one msg _ c Hr Hs Ea) as (Hr' & Hsz & Hg).
  eexists. split; [reflexivity|]. cbn [recentCache messagesPublished name tenantID set_topic].
  split; [exact Hr'|]. split; [exact Hsz|]. split; [exact Hg|].
  split; [reflexivity|]. split; [reflexivity|]. split; [reflexivity|].
  split; [unfold GetSubscriberCount; cbn [subscribers set_topic]; rewrite map_size_fmap; reflexivity|].
  cbn [subscribers set_topic]. split.
  - intros k Hk. rewrite lookup_fmap, Hk. reflexivity.
  - intros k s Hk. rewrite lookup_fmap, Hk. simpl.
    destruct (SendMessages_open msg s (Hall k s Hk)) as (e & s' & E & Hid & Hrc).
    rewrite E. eexists. split; [reflexivity|]. split; assumption.
Qed.

(** [Topic.Publish(msg)] on a topic whose cache is reachable and of
    positive size and whose subscribers are all open never panics: the
    message becomes the newest entry of the cache ([GetLast(1)] returns
    it), [messagesPublished] grows by one, the subscriber ids are kept
    (none added, none removed) and every subscriber has received the
    message once more, whatever its buffer state (delivered, dropped or
    refused by its strategy). *)
Theorem Topic_Publish_open_spec (msg : Message) (t : Topic) :
  cache_reach (recentCache t) -> 0 < size (recentCache t) ->
  (forall k s, subscribers t !! k = Some s -> closed s = false) ->
  exists t', Topic_Publish msg t = Some t' /\
    cache_reach (recentCache t') /\ size (recentCache t') = size (recentCache t) /\
    GetLast (recentCache t') 1 = Some [msg] /\
    messagesPublished t' = messagesPublished t + 1 /\
    name t' = name t /\ tenantID t' = tenantID t /\
    GetSubscriberCount t' = GetSubscriberCount t /\
    (forall k, subscribers t !! k = None -> subscribers t' !! k = None) /\
    (forall k s, subscribers t !! k = Some s -> exists s',
       subscribers t' !! k = Some s' /\ ID s' = ID s /\
       messagesRecieved s' = messagesRecieved s + 1).
Proof. exact (Topic_Publish_open msg t). Qed.

(** Witness: the sample topic with one open subscriber and a fresh cache
    of size 100. *)
Lemma Topic_Publish_open_spec_witness :
  exists t', Topic_Publish (demo_msg 1) demo_topic1 = Some t' /\
    GetLast (recentCache t') 1 = Some [demo_msg 1].
Proof.
  destruct (Topic_Publish_open_spec (demo_msg 1) demo_topic1) as (t' & E & _ & _ & Hg & _).
  - apply (reach_new 100). reflexivity.
  - vm_compute. reflexivity.
  - intros k s Hk. unfold demo_topic1 in Hk. cbn [subscribers] in Hk.
    apply lookup_singleton_Some in Hk as [_ <-]. reflexivity.
  - exists t'. split; [exact E | exact Hg].
Defined.

(** [Topic.Publish(msg)] on a topic holding a closed subscriber (one that
    [Close()] has run on, e.g. through [ShutDown], and that is still in the
    map) panics: its [SendMessages] sends on the closed channel. *)
Theorem Topic_Publish_closed_panics (msg : Message) (t : Topic) (k : string) (s : Subscriber) :
  subscribers t !! k = Some s -> closed s = true -> Topic_Publish msg t = None.
Proof.
  intros Hk Hc. unfold Topic_Publish. destruct (Add msg (recentCache t)); [|reflexivity].
  rewrite (fanout_closed_none msg _ k s Hk Hc). reflexivity.
Qed.

Lemma Topic_Publish_closed_panics_witness :
  Topic_Publish (demo_msg 1)
    (set_topic demo_topic1 {[ "s" := Close demo_sub ]} (recentCache demo_topic1) 0 1) = None.
Proof.
  apply (Topic_Publish_closed_panics _ _ "s" (Close demo_sub)).
  - apply lookup_singleton_eq.
  - reflexivity.
Defined.

(** ** Shutting the manager down *)

Lemma Close_idem (s : Subscriber) : Close (Close s) = Close s.
Proof. unfold Close. destruct (closed s) eqn:E; [rewrite E|]; reflexivity. Qed.

Lemma total_count_fmap (g : Topic -> Topic) (m : gmap string Topic) :
  (forall t, GetSubscriberCount (g t) = GetSubscriberCount t) ->
  map_fold (fun _ topic total => total + GetSubscriberCount topic) 0 (g <$> m) =
  map_fold (fun _ topic total => total + GetSubscriberCount topic) 0 m.
Proof.
  intros Hg. induction m as [|i x m Hi IH] using map_ind.
  - by rewrite fmap_empty.
  - rewrite fmap_insert.
    rewrite map_fold_insert_L; [| intros; lia | rewrite lookup_fmap, Hi; reflexivity].
    rewrite map_fold_insert_L; [| intros; lia | exact Hi].
    rewrite IH, Hg. reflexivity.
Qed.

(** [TopicManager.ShutDown()] closes every subscriber of every topic and
    leaves them in their topics: the topics, the subscriber ids, the counts
    ([GetTopicCount], [GetTotalSubscriberCount]), the caches and the buffer
    manager are unchanged; a missing topic stays missing; and a second
    [ShutDown] changes nothing ([Close] is guarded by [closeOnce]). *)
Theorem TM_ShutDown_spec (tm : TopicManager) :
  bufferManager (TM_ShutDown tm) = bufferManager tm /\
  GetTopicCount (TM_ShutDown tm) = GetTopicCount tm /\
  TM_GetTotalSubscriberCount (TM_ShutDown tm) = TM_GetTotalSubscriberCount tm /\
  (forall tenant topicName, GetTopic tenant topicName tm = None ->
     GetTopic tenant topicName (TM_ShutDown tm) = None) /\
  (forall tenant topicName t, GetTopic tenant topicName tm = Some t ->
     exists t', GetTopic tenant topicName (TM_ShutDown tm) = Some t' /\
       (forall j, subscribers t' !! j = Close <$> subscribers t !! j) /\
       (forall j s, subscribers t' !! j = Some s -> closed s = true) /\
       recentCache t' = recentCache t /\ messagesPublished t' = messagesPublished t) /\
  TM_ShutDown (TM_ShutDown tm) = TM_ShutDown tm.
Proof.
  split; [reflexivity|].
  split; [unfold GetTopicCount, TM_ShutDown; cbn [topics]; rewrite map_size_fmap; reflexivity|].
  split.
  { unfold TM_GetTotalSubscriberCount, TM_ShutDown; cbn [topics]. apply total_count_fmap.
    intros t. unfold GetSubscriberCount, set_topic; cbn [subscribers].
    rewrite map_size_fmap. reflexivity. }
  split.
  { intros tenant topicName H. unfold GetTopic, TM_ShutDown in *; cbn [topics].
    rewrite lookup_fmap, H. reflexivity. }
  split.
  { intros tenant topicName t H. unfold GetTopic, TM_ShutDown in *; cbn [topics].
    rewrite lookup_fmap, H. eexists. split; [reflexivity|].
    unfold set_topic; cbn [subscribers recentCache messagesPublished].
    split; [intros j; apply lookup_fmap|].
    split; [|split; reflexivity].
    intros j s Hj. rewrite lookup_fmap in Hj.
    destruct (subscribers t !! j); simpl in Hj; [|discriminate].
    injection Hj as <-. apply Close_closed. }
  unfold TM_ShutDown at 1; cbn [bufferManager topics]. unfold TM_ShutDown. cbn [topics bufferManager].
  f_equal. rewrite <- map_fmap_compose. apply map_fmap_ext. intros k t _.
  unfold compose, set_topic; cbn [name tenantID subscribers recentCache messagesPublished
    totalSubscribers createdAt].
  f_equal. rewrite <- map_fmap_compose. apply map_fmap_ext. intros j s _. apply Close_idem.
Qed.

(** After [ShutDown()], publishing to a topic that held a subscriber
    panics: the fan-out sends on that subscriber's closed channel. *)
Theorem TM_Publish_after_ShutDown_panics (tenant topicName : string) (msg : Message) (now : Z)
    (tm : TopicManager) (t : Topic) (j : string) (s : Subscriber) :
  GetTopic tenant topicName tm = Some t -> subscribers t !! j = Some s ->
  TM_Publish tenant topicName msg now (TM_ShutDown tm) = None.
Proof.
  intros Ht Hj. unfold TM_Publish, getOrCreateTopic, TM_ShutDown. cbn [topics].
  unfold GetTopic in Ht. rewrite lookup_fmap, Ht. simpl. unfold Topic_Publish.
  cbn [recentCache subscribers set_topic].
  destruct (Add msg (recentCache t)); [|reflexivity].
  rewrite (fanout_closed_none msg _ j (Close s)); [reflexivity | | apply Close_closed].
  rewrite lookup_fmap, Hj. reflexivity.
Qed.

Lemma TM_Publish_after_ShutDown_panics_witness :
  TM_Publish "default-tenant" "orders" (demo_msg 1) 0 (TM_ShutDown demo_tm1) = None.
Proof.
  apply (TM_Publish_after_ShutDown_panics "default-tenant" "orders" (demo_msg 1) 0 demo_tm1
           demo_topic1 "s" demo_sub).
  - unfold GetTopic, demo_tm1. cbn [topics]. apply lookup_singleton_eq.
  - unfold demo_topic1. cbn [subscribers]. apply lookup_singleton_eq.
Defined.

(** ** Subscriber counts and the throttler's monitor *)

Lemma slow_count_spec (m : gmap string Subscriber) :
  (0 <= map_fold (fun _ sub count => if IsSlow sub then count + 1 else count) 0 m
      <= Z.of_nat (stdpp.base.size m)) /\
  (map_fold (fun _ sub count => if IsSlow sub then count + 1 else count) 0 m = 0 <->
   forall j s, m !! j = Some s -> droppedCount s <= 0).
Proof.
  revert m.
  apply (map_fold_weak_ind (fun r m => (0 <= r <= Z.of_nat (stdpp.base.size m)) /\
           (r = 0 <-> forall j s, m !! j = Some s -> droppedCount s <= 0))).
  - rewrite map_size_empty. split; [lia|].
    split; [intros _ j s Hj; rewrite lookup_empty in Hj; discriminate | reflexivity].
  - intros i x m r Hi [Hb Hz]. rewrite map_size_insert_None by exact Hi.
    unfold IsSlow. destruct (droppedCount x >? 0) eqn:E.
    + apply Z.gtb_lt in E. split; [lia|]. split; [lia|].
      intros Hall. specialize (Hall i x (lookup_insert_eq m i x)). lia.
    + rewrite Z.gtb_ltb in E. apply Z.ltb_ge in E. split; [lia|]. rewrite Hz. split.
      * intros Hall j s Hj. destruct (decide (j = i)) as [->|Hne].
        -- rewrite lookup_insert_eq in Hj. injection Hj as <-. lia.
        -- rewrite lookup_insert_ne in Hj by congruence. exact (Hall j s Hj).
      * intros Hall j s Hj. apply (Hall j). rewrite lookup_insert_ne; [exact Hj|].
        intros ->. congruence.
Qed.

Lemma tm_counts (m : gmap string Topic) :
  (0 <= map_fold (fun _ topic total => total + GetSlowSubscriberCount topic) 0 m <=
        map_fold (fun _ topic total => total + GetSubscriberCount topic) 0 m) /\
  (map_fold (fun _ topic total => total + GetSlowSubscriberCount topic) 0 m = 0 <->
   forall k t j s, m !! k = Some t -> subscribers t !! j = Some s -> droppedCount s <= 0).
Proof.
  induction m as [|i x m Hi IH] using map_ind.
  - rewrite !map_fold_empty. split; [lia|].
    split; [intros _ k t j s Hk; rewrite lookup_empty in Hk; discriminate | reflexivity].
  - rewrite !map_fold_insert_L by first [intros; lia | exact Hi].
    destruct IH as [Hb Hz].
    assert (Hx : (0 <= GetSlowSubscriberCount x <= GetSubscriberCount x) /\
                 (GetSlowSubscriberCount x = 0 <->
                  forall j s, subscribers x !! j = Some s -> droppedCount s <= 0))
      by exact (slow_count_spec (subscribers x)).
    destruct Hx as [Hxb Hxz].
    split; [lia|]. split.
    + intros H0 k t j s Hk Hj. destruct (decide (k = i)) as [->|Hne].
      * rewrite lookup_insert_eq in Hk. injection Hk as <-.
        exact (proj1 Hxz ltac:(lia) j s Hj).
      * rewrite lookup_insert_ne in Hk by congruence.
        exact (proj1 Hz ltac:(lia) k t j s Hk Hj).
    + intros Hall.
      assert (A1 : GetSlowSubscriberCount x = 0).
      { apply (proj2 Hxz). intros j s Hj. apply (Hall i x j s); [apply lookup_insert_eq | exact Hj]. }
      assert (A2 : map_fold (fun _ topic total => total + GetSlowSubscriberCount topic) 0 m = 0).
      { apply (proj2 Hz). intros k t j s Hk Hj. apply (Hall k t j s); [|exact Hj].
        rewrite lookup_insert_ne; [exact Hk|]. intros ->. congruence. }
      lia.
Qed.

(** [Topic.GetSlowSubscriberCount()] is between 0 and
    [GetSubscriberCount()], and it is 0 exactly when no subscriber of the
    topic has dropped a message. *)
Theorem GetSlowSubscriberCount_spec (t : Topic) :
  0 <= GetSlowSubscriberCount t <= GetSubscriberCount t /\
  (GetSlowSubscriberCount t = 0 <->
   forall j s, subscribers t !! j = Some s -> droppedCount s <= 0).
Proof. exact (slow_count_spec (subscribers t)). Qed.

(** The manager-wide counts: the slow count is between 0 and the total
    count, and it is 0 exactly when no subscriber of any topic has dropped a
    message. *)
Theorem TM_counts_spec (tm : TopicManager) :
  0 <= TM_GetSlowSubscriberCount tm <= TM_GetTotalSubscriberCount tm /\
  (TM_GetSlowSubscriberCount tm = 0 <->
   forall k t j s, topics tm !! k = Some t -> subscribers t !! j = Some s -> droppedCount s <= 0).
Proof. exact (tm_counts (topics tm)). Qed.

(** A [monitoLoop] tick hands the manager's counts to the throttler
    unchanged as long as the total fits the int32 conversion of
    [UpdateSubscriber]; then [0 <= slowSubCount <= totalSubCount], and the
    throttle flag and the check time are untouched. *)
Theorem monitor_tick_counts (tm : TopicManager) (at0 : AdaptiveThrottler) :
  TM_GetTotalSubscriberCount tm < 2 ^ 31 ->
  totalSubCount (monitor_tick tm at0) = TM_GetTotalSubscriberCount tm /\
  slowSubCount (monitor_tick tm at0) = TM_GetSlowSubscriberCount tm /\
  0 <= slowSubCount (monitor_tick tm at0) <= totalSubCount (monitor_tick tm at0) /\
  isThrottling (monitor_tick tm at0) = isThrottling at0 /\
  lastCheckTime (monitor_tick tm at0) = lastCheckTime at0.
Proof.
  intros H.
  assert (Hb : 0 <= TM_GetSlowSubscriberCount tm <= TM_GetTotalSubscriberCount tm)
    by exact (proj1 (tm_counts (topics tm))).
  unfold monitor_tick, UpdateSubscriber.
  cbn [totalSubCount slowSubCount isThrottling lastCheckTime].
  rewrite !toInt32_small by lia. repeat split; lia.
Qed.

Lemma monitor_tick_counts_witness :
  totalSubCount (monitor_tick demo_tm1 (NewAdaptiveThrottler DefaultConfig 0)) = 1.
Proof.
  rewrite (proj1 (monitor_tick_counts demo_tm1 (NewAdaptiveThrottler DefaultConfig 0)
                    ltac:(vm_compute; reflexivity))).
  vm_compute. reflexivity.
Defined.

Lemma Qlt_bool_zero_ratio (th q : Q) : (0 <= th)%Q -> Qlt_bool th (inject_Z 0 / q) = false.
Proof.
  intros H. destruct (Qlt_bool th (inject_Z 0 / q)) eqn:E; [|reflexivity].
  apply Qlt_bool_iff in E. exfalso. revert H E. unfold Qle, Qlt, Qdiv, Qmult; simpl. nia.
Qed.

(** When no subscriber of any topic has dropped a message, a throttler that
    is not throttling and has a non-negative slow-subscriber threshold
    never starts throttling after a [monitoLoop] tick, whatever the CPU and
    memory readings: [ShouldThrottle] answers false and leaves the flag
    off. *)
Theorem monitor_no_slow_no_throttle (tm : TopicManager) (at0 : AdaptiveThrottler)
    (now numGoroutines alloc : Z) :
  (forall k t j s, topics tm !! k = Some t -> subscribers t !! j = Some s -> droppedCount s <= 0) ->
  isThrottling at0 = false -> (0 <= SlowSubThreshold (config at0))%Q ->
  fst (ShouldThrottle now numGoroutines alloc (monitor_tick tm at0)) = false /\
  isThrottling (snd (ShouldThrottle now numGoroutines alloc (monitor_tick tm at0))) = false.
Proof.
  intros Hall Hthr Hth.
  assert (H0 : TM_GetSlowSubscriberCount tm = 0) by exact (proj2 (proj2 (tm_counts (topics tm))) Hall).
  unfold ShouldThrottle, monitor_tick, UpdateSubscriber.
  cbn [isThrottling lastCheckTime config totalSubCount slowSubCount set_check].
  rewrite Hthr, H0. replace (toInt32 0) with 0 by reflexivity.
  destruct (_ <? _); [split; reflexivity|].
  destruct (toInt32 (TM_GetTotalSubscriberCount tm) =? 0); [split; reflexivity|].
  rewrite (Qlt_bool_zero_ratio _ _ Hth). split; reflexivity.
Qed.

(** Witness: with many goroutines and a full heap, the sample manager (no
    drops) does not make the default throttler throttle. *)
Lemma monitor_no_slow_no_throttle_witness :
  fst (ShouldThrottle (2 * second) 20000 (2 ^ 31)
         (monitor_tick demo_tm1 (NewAdaptiveThrottler DefaultConfig 0))) = false.
Proof.
  apply (monitor_no_slow_no_throttle demo_tm1 (NewAdaptiveThrottler DefaultConfig 0)).
  - intros k t j s Hk Hj. unfold demo_tm1 in Hk. cbn [topics] in Hk.
    apply lookup_singleton_Some in Hk as [_ <-].
    unfold demo_topic1 in Hj. cbn [subscribers] in Hj.
    apply lookup_singleton_Some in Hj as [_ <-]. simpl. lia.
  - reflexivity.
  - unfold Qle. simpl. lia.
Defined.

(** ** The cache invariant of the manager, and the publish handler *)

Lemma demo_tm0_ok : tm_caches_ok demo_tm0.
Proof.
  intros k t Hk. unfold demo_tm0 in Hk. cbn [topics] in Hk.
  rewrite lookup_empty in Hk. discriminate.
Qed.

Lemma tm_caches_ok_put (key : string) (t : Topic) (tm : TopicManager) :
  tm_caches_ok tm -> cache_reach (recentCache t) -> 0 < size (recentCache t) ->
  tm_caches_ok (put_topic key t tm).
Proof.
  intros Hok Hr Hs k t' Hk. unfold put_topic in Hk. cbn [topics] in Hk.
  destruct (decide (k = key)) as [->|Hne].
  - rewrite lookup_insert_eq in Hk. injection Hk as <-. split; assumption.
  - rewrite lookup_insert_ne in Hk by congruence. exact (Hok k t' Hk).
Qed.

Lemma getOrCreateTopic_shape (tenant topicName : string) (now : Z) (tm : TopicManager) :
  tm_caches_ok tm ->
  exists t tm1, getOrCreateTopic tenant topicName now tm = Some (t, tm1) /\
    topics tm1 = <[makeTopicKey tenant topicName := t]> (topics tm) /\
    bufferManager tm1 = bufferManager tm /\
    cache_reach (recentCache t) /\ 0 < size (recentCache t) /\
    match topics tm !! makeTopicKey tenant topicName with
    | Some t0 => t = t0
    | None => subscribers t = ∅
    end.
Proof.
  intros Hok. unfold getOrCreateTopic.
  destruct (topics tm !! makeTopicKey tenant topicName) as [t0|] eqn:E.
  - exists t0, tm. split; [reflexivity|]. split; [rewrite insert_id by exact E; reflexivity|].
    split; [reflexivity|]. destruct (Hok _ _ E) as [Hr Hs].
    split; [exact Hr|]. split; [exact Hs | reflexivity].
  - unfold NewTopic. destruct (NewRecentMessageCache 100) as [c|] eqn:Ec.
    + eexists _, _. split; [reflexivity|]. cbn [topics bufferManager recentCache subscribers].
      split; [reflexivity|]. split; [reflexivity|].
      split; [apply (reach_new 100); exact Ec|].
      split; [|reflexivity].
      unfold NewRecentMessageCache in Ec. cbn -[replicate] in Ec. injection Ec as <-.
      cbn [size]. lia.
    + exfalso. unfold NewRecentMessageCache in Ec. cbn -[replicate] in Ec. discriminate.
Qed.

Lemma tm_caches_ok_insert (key : string) (t : Topic) (tm tm' : TopicManager) :
  tm_caches_ok tm -> topics tm' = <[key := t]> (topics tm) ->
  cache_reach (recentCache t) -> 0 < size (recentCache t) -> tm_caches_ok tm'.
Proof.
  intros Hok Ht Hr Hs k t' Hk. rewrite Ht in Hk.
  exact (tm_caches_ok_put key t tm Hok Hr Hs k t' Hk).
Qed.

Lemma TM_Publish_ok (tenant topicName : string) (msg : Message) (now : Z) (tm tm' : TopicManager) :
  tm_caches_ok tm -> TM_Publish tenant topicName msg now tm = Some tm' -> tm_caches_ok tm'.
Proof.
  intros Hok E. unfold TM_Publish in E.
  destruct (getOrCreateTopic_shape tenant topicName now tm Hok)
    as (t & tm1 & Eg & Ht1 & _ & Hr & Hs & _).
  rewrite Eg in E.
  destruct (Topic_Publish msg t) as [t'|] eqn:Ep; [|discriminate]. injection E as <-.
  unfold Topic_Publish in Ep. destruct (Add msg (recentCache t)) as [c|] eqn:Ea; [|discriminate].
  destruct (fanout msg (subscribers t)); [|discriminate]. injection Ep as <-.
  destruct (add_getlast_one msg _ c Hr Hs Ea) as (Hr' & Hsz & _).
  apply tm_caches_ok_put; [eapply tm_caches_ok_insert; eauto | exact Hr' | cbn [recentCache set_topic]; lia].
Qed.

Lemma Topic_Subscribe_cache (sub : Subscriber) (t : Topic) :
  recentCache (snd (Topic_Subscribe sub t)) = recentCache t.
Proof. unfold Topic_Subscribe. destruct (negb _); reflexivity. Qed.

Lemma TM_Subscribe_ok (tenant topicName subscriberID : string) (sub : Subscriber) (now : Z)
    (e : option TopicError) (tm tm' : TopicManager) :
  tm_caches_ok tm -> TM_Subscribe tenant topicName subscriberID sub now tm = Some (e, tm') ->
  tm_caches_ok tm'.
Proof.
  intros Hok E. unfold TM_Subscribe in E.
  destruct (negb _); [injection E as _ <-; exact Hok|].
  destruct (getOrCreateTopic_shape tenant topicName now tm Hok)
    as (t & tm1 & Eg & Ht1 & _ & Hr & Hs & _).
  rewrite Eg in E.
  pose proof (Topic_Subscribe_cache sub t) as Hc.
  destruct (Topic_Subscribe sub t) as [err t'] eqn:Es. injection E as _ <-.
  cbn [snd] in Hc.
  apply tm_caches_ok_put; [| rewrite Hc; exact Hr | rewrite Hc; exact Hs].
  eapply tm_caches_ok_insert; [exact Hok | exact Ht1 | exact Hr | exact Hs].
Qed.

Lemma topic_catchup_cache (subID : string) (t t' : Topic) :
  topic_catchup subID t = Some t' -> recentCache t' = recentCache t.
Proof.
  unfold topic_catchup. destruct (subscribers t !! subID).
  - destruct (sendRecentMessages _ _); [intros [= <-]; reflexivity | discriminate].
  - destruct (GetLast _ _) as [[|? ?]|]; [intros [= <-]; reflexivity | discriminate | discriminate].
Qed.

Lemma tm_catchup_ok (key subID : string) (tm tm' : TopicManager) :
  tm_caches_ok tm -> tm_catchup key subID tm = Some tm' -> tm_caches_ok tm'.
Proof.
  intros Hok E. unfold tm_catchup in E.
  destruct (topics tm !! key) as [t|] eqn:Ek; [|injection E as <-; exact Hok].
  destruct (topic_catchup subID t) as [t'|] eqn:Ec; [|discriminate]. injection E as <-.
  destruct (Hok key t Ek) as [Hr Hs]. rewrite <- (topic_catchup_cache _ _ _ Ec) in Hr, Hs.
  apply tm_caches_ok_put; assumption.
Qed.

Lemma TM_Unsubscribe_ok (tenant topicName subscriberID : string) (tm : TopicManager) :
  tm_caches_ok tm -> tm_caches_ok (snd (TM_Unsubscribe tenant topicName subscriberID tm)).
Proof.
  intros Hok. unfold TM_Unsubscribe.
  destruct (topics tm !! makeTopicKey tenant topicName) as [t|] eqn:Ek; [|exact Hok].
  unfold Topic_Unsubscribe. destruct (subscribers t !! subscriberID); [|exact Hok].
  cbn [snd]. destruct (Hok _ _ Ek) as [Hr Hs].
  eapply tm_caches_ok_insert; [exact Hok | reflexivity | exact Hr | exact Hs].
Qed.

Lemma TM_ShutDown_ok (tm : TopicManager) : tm_caches_ok tm -> tm_caches_ok (TM_ShutDown tm).
Proof.
  intros Hok k t Hk. unfold TM_ShutDown in Hk. cbn [topics] in Hk.
  rewrite lookup_fmap in Hk. destruct (topics tm !! k) as [t0|] eqn:E; simpl in Hk; [|discriminate].
  injection Hk as <-. exact (Hok k t0 E).
Qed.

Lemma PublishHandler_ok (ctxTenant : option string) (topic : string) (data : option string)
    (id : string) (now : Z) (r : PublishResponse) (tm tm' : TopicManager) :
  tm_caches_ok tm -> PublishHandler ctxTenant topic data id now tm = Some (r, tm') -> tm_caches_ok tm'.
Proof.
  intros Hok E. unfold PublishHandler in E.
  destruct (String.eqb topic ""); [injection E as _ <-; exact Hok|].
  destruct data as [d|]; [|injection E as _ <-; exact Hok].
  destruct (TM_Publish _ _ _ _ tm) as [tm1|] eqn:Ep; [|discriminate]. injection E as _ <-.
  exact (TM_Publish_ok _ _ _ _ _ _ Hok Ep).
Qed.

Lemma SubscribeHandler_ok (ctxTenant : option string) (topic subscriberID : string) (now : Z)
    (e : option TopicError) (tm tm' : TopicManager) :
  tm_caches_ok tm -> SubscribeHandler ctxTenant topic subscriberID now tm = Some (e, tm') ->
  tm_caches_ok tm'.
Proof.
  intros Hok E. unfold SubscribeHandler in E.
  destruct (NewSubscriber _ _ _ _ _) as [sub|]; [|discriminate].
  destruct (TM_Subscribe _ _ _ sub now tm) as [[[e1|] tm1]|] eqn:Es; [| |discriminate].
  - injection E as _ <-. exact (TM_Subscribe_ok _ _ _ _ _ _ _ _ Hok Es).
  - destruct (tm_catchup _ _ tm1) as [tm2|] eqn:Ec; [|discriminate]. injection E as _ <-.
    exact (tm_catchup_ok _ _ _ _ (TM_Subscribe_ok _ _ _ _ _ _ _ _ Hok Es) Ec).
Qed.

(** Every operation of the topic manager keeps each registered topic's
    cache reachable and of positive size (the caches [getOrCreateTopic]
    makes have size 100 and only [Add] touches them): [Publish],
    [Subscribe], [Unsubscribe], the catch-up goroutine, [ShutDown], and the
    two HTTP handlers.  So a publish never panics in the cache. *)
Theorem tm_caches_ok_preserved (tm : TopicManager) :
  tm_caches_ok tm ->
  (forall tenant topicName msg now tm', TM_Publish tenant topicName msg now tm = Some tm' ->
     tm_caches_ok tm') /\
  (forall tenant topicName subscriberID sub now e tm',
     TM_Subscribe tenant topicName subscriberID sub now tm = Some (e, tm') -> tm_caches_ok tm') /\
  (forall tenant topicName subscriberID,
     tm_caches_ok (snd (TM_Unsubscribe tenant topicName subscriberID tm))) /\
  (forall key subID tm', tm_catchup key subID tm = Some tm' -> tm_caches_ok tm') /\
  tm_caches_ok (TM_ShutDown tm) /\
  (forall ctxTenant topic data id now r tm',
     PublishHandler ctxTenant topic data id now tm = Some (r, tm') -> tm_caches_ok tm') /\
  (forall ctxTenant topic subscriberID now e tm',
     SubscribeHandler ctxTenant topic subscriberID now tm = Some (e, tm') -> tm_caches_ok tm').
Proof.
  intros Hok. split; [intros; eapply TM_Publish_ok; eauto|].
  split; [intros; eapply TM_Subscribe_ok; eauto|].
  split; [intros; apply TM_Unsubscribe_ok; exact Hok|].
  split; [intros; eapply tm_catchup_ok; eauto|].
  split; [apply TM_ShutDown_ok; exact Hok|].
  split; [intros; eapply PublishHandler_ok; eauto | intros; eapply SubscribeHandler_ok; eauto].
Qed.

(** Witness: the fresh manager, and what the subscribe handler makes of it. *)
Lemma tm_caches_ok_preserved_witness :
  tm_caches_ok demo_tm0 /\
  forall e tm', SubscribeHandler None "orders" "s" 0 demo_tm0 = Some (e, tm') -> tm_caches_ok tm'.
Proof.
  split; [exact demo_tm0_ok|].
  exact (proj2 (proj2 (proj2 (proj2 (proj2 (proj2 (tm_caches_ok_preserved demo_tm0 demo_tm0_ok))))))
           None "orders" "s" 0).
Defined.

(** [PublishHandler.ServeHTTP]: an empty topic or a missing data object is
    a 400 that changes nothing.  Otherwise, on a manager whose caches are as
    the code makes them and whose target topic (if registered) holds only
    open subscribers, the handler answers with the message id, the topic
    exists afterwards (created if it was missing, one topic more), its
    newest cached message is the published one, and the buffer manager is
    untouched. *)
Theorem PublishHandler_spec (ctxTenant : option string) (topic : string) (data : option string)
    (id : string) (now : Z) (tm : TopicManager) :
  tm_caches_ok tm ->
  ((topic = "" \/ data = None) ->
   PublishHandler ctxTenant topic data id now tm = Some (PublishFailed 400, tm)) /\
  (forall d, topic <> "" -> data = Some d ->
   (forall t j s, GetTopic (resolve_tenant ctxTenant) topic tm = Some t ->
      subscribers t !! j = Some s -> closed s = false) ->
   exists tm' t', PublishHandler ctxTenant topic data id now tm = Some (PublishOK id, tm') /\
     GetTopic (resolve_tenant ctxTenant) topic tm' = Some t' /\
     GetLast (recentCache t') 1 = Some [NewMessage topic (resolve_tenant ctxTenant) d id now] /\
     GetTopicCount tm' = GetTopicCount tm +
       match GetTopic (resolve_tenant ctxTenant) topic tm with Some _ => 0 | None => 1 end /\
     bufferManager tm' = bufferManager tm).
Proof.
  intros Hok. unfold PublishHandler. split.
  - intros [-> | ->]; [reflexivity|]. destruct (String.eqb topic ""); reflexivity.
  - intros d Hne -> Hopen.
    replace (String.eqb topic "") with false by (symmetry; apply String.eqb_neq; exact Hne).
    set (tenant := resolve_tenant ctxTenant) in *.
    set (msg := NewMessage topic tenant d id now).
    unfold TM_Publish.
    destruct (getOrCreateTopic_shape tenant topic now tm Hok)
      as (t & tm1 & Eg & Ht1 & Hb1 & Hr & Hs & Hcase).
    rewrite Eg.
    assert (Hopen' : forall k s, subscribers t !! k = Some s -> closed s = false).
    { intros k s Hk. destruct (topics tm !! makeTopicKey tenant topic) as [t0|] eqn:E0.
      - subst t. exact (Hopen t0 k s E0 Hk).
      - rewrite Hcase, lookup_empty in Hk. discriminate. }
    destruct (Topic_Publish_open msg t Hr Hs Hopen') as (t' & Ep & _ & _ & Hg & _).
    rewrite Ep. exists (put_topic (makeTopicKey tenant topic) t' tm1), t'.
    split; [reflexivity|].
    split; [unfold GetTopic, put_topic; cbn [topics]; apply lookup_insert_eq|].
    split; [exact Hg|].
    split.
    + unfold GetTopicCount, GetTopic, put_topic. cbn [topics]. rewrite Ht1.
      rewrite map_size_insert_lookup, lookup_insert_eq, map_size_insert_lookup.
      cbv beta iota. lia.
    + unfold put_topic. cbn [bufferManager]. exact Hb1.
Qed.

(** Witness: a first publish to "orders" on the fresh manager. *)
Lemma PublishHandler_spec_witness :
  exists tm' t',
    PublishHandler None "orders" (Some "{}") "m1" 5 demo_tm0 = Some (PublishOK "m1", tm') /\
    GetLast (recentCache t') 1 = Some [NewMessage "orders" "default-tenant" "{}" "m1" 5].
Proof.
  destruct (PublishHandler_spec None "orders" (Some "{}") "m1" 5 demo_tm0 demo_tm0_ok) as [_ H].
  destruct (H "{}" ltac:(discriminate) eq_refl) as (tm' & t' & E & _ & Hg & _).
  - intros t j s Ht. unfold GetTopic, demo_tm0 in Ht. cbn [topics] in Ht.
    rewrite lookup_empty in Ht. discriminate.
  - exists tm', t'. split; [exact E | exact Hg].
Defined.

(** ** Back-pressure of one subscriber *)

(** [SendMessages(msg)] on an open subscriber: with room in the buffer the
    message is queued and nothing is dropped.  With a full buffer the drop
    strategy decides: [DROP_OLDEST] (with a positive capacity) evicts the
    oldest queued message, queues the new one and counts one drop, with no
    error; [DROP_NEWEST] rejects the new message, keeps the buffer and
    counts one drop; an unknown strategy does the same with its own error.
    In every case [messagesRecieved] grows by one. *)
Theorem SendMessages_backpressure (msg : Message) (s : Subscriber) :
  closed s = false ->
  (Z.of_nat (length (messageChan s)) < chanCap s ->
   exists s', SendMessages msg s = Some (None, s') /\
     messageChan s' = messageChan s ++ [msg] /\ droppedCount s' = droppedCount s /\
     messagesRecieved s' = messagesRecieved s + 1) /\
  (Z.of_nat (length (messageChan s)) = chanCap s -> dropStrategy s = DROP_OLDEST -> 0 < chanCap s ->
   exists s', SendMessages msg s = Some (None, s') /\
     messageChan s' = tail (messageChan s) ++ [msg] /\ droppedCount s' = droppedCount s + 1 /\
     messagesRecieved s' = messagesRecieved s + 1) /\
  (Z.of_nat (length (messageChan s)) = chanCap s -> dropStrategy s = DROP_NEWEST ->
   exists s', SendMessages msg s = Some (Some ErrBufferFull, s') /\
     messageChan s' = messageChan s /\ droppedCount s' = droppedCount s + 1 /\
     messagesRecieved s' = messagesRecieved s + 1) /\
  (Z.of_nat (length (messageChan s)) = chanCap s ->
   dropStrategy s <> DROP_OLDEST -> dropStrategy s <> DROP_NEWEST ->
   dropStrategy s <> CIRCUIT_BREAKER ->
   exists s', SendMessages msg s = Some (Some ErrUnknownStrategy, s') /\
     messageChan s' = messageChan s /\ droppedCount s' = droppedCount s + 1 /\
     messagesRecieved s' = messagesRecieved s + 1).
Proof.
  intros Hc. unfold SendMessages, chan_try_send.
  cbn [closed set_counters messageChan chanCap]. rewrite Hc.
  split; [|split; [|split]].
  - intros Hl. apply Z.ltb_lt in Hl. rewrite Hl. eexists. split; [reflexivity|].
    cbn [set_chan messageChan droppedCount messagesRecieved set_counters].
    split; [reflexivity|]. split; reflexivity.
  - intros Hl Hd Hp.
    replace (Z.of_nat (length (messageChan s)) <? chanCap s) with false
      by (symmetry; apply Z.ltb_ge; lia).
    unfold handleBackPressure, chan_try_recv, incr_dropped, chan_try_send.
    cbn [dropStrategy set_counters set_chan messageChan chanCap droppedCount messagesRecieved
         messagesSent].
    rewrite Hd, Z.eqb_refl.
    destruct (messageChan s) as [|m rest] eqn:Em; [simpl in Hl; lia|].
    cbn [set_counters set_chan messageChan chanCap droppedCount messagesRecieved messagesSent].
    replace (Z.of_nat (length rest) <? chanCap s) with true
      by (symmetry; apply Z.ltb_lt; rewrite length_cons in Hl; lia).
    eexists. split; [reflexivity|].
    cbn [set_counters set_chan messageChan droppedCount messagesRecieved tail].
    split; [reflexivity|]. split; reflexivity.
  - intros Hl Hd.
    replace (Z.of_nat (length (messageChan s)) <? chanCap s) with false
      by (symmetry; apply Z.ltb_ge; lia).
    unfold handleBackPressure, incr_dropped.
    cbn [dropStrategy set_counters]. rewrite Hd.
    eexists. split; [reflexivity|].
    cbn [set_counters messageChan droppedCount messagesRecieved].
    split; [reflexivity|]. split; reflexivity.
  - intros Hl H0 H1 H2.
    replace (Z.of_nat (length (messageChan s)) <? chanCap s) with false
      by (symmetry; apply Z.ltb_ge; lia).
    unfold handleBackPressure, incr_dropped.
    cbn [dropStrategy set_counters].
    rewrite (proj2 (Z.eqb_neq _ _) H0), (proj2 (Z.eqb_neq _ _) H1), (proj2 (Z.eqb_neq _ _) H2).
    eexists. split; [reflexivity|].
    cbn [set_counters messageChan droppedCount messagesRecieved].
    split; [reflexivity|]. split; reflexivity.
Qed.

(** Witness: the sample subscriber (capacity 100) with one message queued,
    and the same subscriber with a full buffer of capacity 1. *)
Lemma SendMessages_backpressure_witness :
  (exists s', SendMessages (demo_msg 2) (set_chan demo_sub [demo_msg 1]) = Some (None, s') /\
     messageChan s' = [demo_msg 1; demo_msg 2]) /\
  (exists s', SendMessages (demo_msg 2)
       (mkSubscriber "s" "default-tenant" "orders" [demo_msg 1] 1 DROP_OLDEST 0 1 0 0 false None)
     = Some (None, s') /\ messageChan s' = [demo_msg 2] /\ droppedCount s' = 1).
Proof.
  split.
  - destruct (proj1 (SendMessages_backpressure (demo_msg 2) (set_chan demo_sub [demo_msg 1])
                       eq_refl) ltac:(vm_compute; reflexivity)) as (s' & E & Hm & _).
    exists s'. split; [exact E | exact Hm].
  - destruct (proj1 (proj2 (SendMessages_backpressure (demo_msg 2)
       (mkSubscriber "s" "default-tenant" "orders" [demo_msg 1] 1 DROP_OLDEST 0 1 0 0 false None)
       eq_refl)) eq_refl eq_refl ltac:(vm_compute; reflexivity)) as (s' & E & Hm & Hd & _).
    exists s'. split; [exact E|]. split; [exact Hm | exact Hd].
Defined.
